(** * VibeTree: the git command layer and its REST surface

  A shallow embedding of [packages/core/src/utils/git.ts] and of the git and
  directory routes of [apps/server/src/api/rest.ts].

  Definitions:
  - [Js]         the JavaScript values, errors and string operations in use;
  - [Path]       Node's POSIX [path.join] and [path.basename];
  - [Async]      promises and [async] functions, as a state-and-outcome monad
                 over the log of spawned processes and console calls;
  - [Worktree], [GitStatus], [WorktreeAddResult], [WorktreeRemoveResult]
                 the result types;
  - [GitParser]  the worktree-list parser;
  - [Git]        [executeGitCommand] and the operations built on it;
  - [Rest]       the express handlers;
  - [Vocabulary], [Scenario]  what the statements speak of, and concrete
                 operating systems to run the code on.

  Properties: [StringFacts], [ExecutorSpec], [OperationsSpec],
  [AddWorktreeSpec], [ParserSpec], [RestSpec].

  JavaScript strings are modelled by [string]; one character stands for one
  code unit, so [String.length] is the [.length] of the source.  A child
  process is the list of events it emits; a promise that no event settles
  stays pending, and so does every [await] on it. *)

From Stdlib Require Import String Ascii List ZArith Bool Lia.
Set Warnings "-register-all".
Import ListNotations.
Open Scope string_scope.

(* ================================================================== *)
(** * JavaScript values *)

Module Js.

(** A value of static type [string] that may be absent at run time
    (a missing field of [req.body], an unset environment variable). *)
Inductive JsVal : Type :=
| undefined
| str (s : string).

(** Template-literal interpolation [`${v}`]. *)
Definition template (v : JsVal) : string :=
  match v with
  | undefined => "undefined"
  | str s => s
  end.

(** Truthiness, as tested by [if (v)] and [!v]. *)
Definition truthy (v : JsVal) : bool :=
  match v with
  | undefined => false
  | str s => negb (s =? "")
  end.

(** [a || b] on two strings: the empty string is falsy. *)
Definition or_else (a b : string) : string :=
  if a =? "" then b else a.

(** [Array.prototype.join]: an [undefined] element is rendered empty. *)
Definition join_elem (v : JsVal) : string :=
  match v with
  | undefined => ""
  | str s => s
  end.

Definition join (sep : string) (xs : list JsVal) : string :=
  String.concat sep (map join_elem xs).

(** [String.prototype.includes]. *)
Fixpoint includes (s sub : string) : bool :=
  String.prefix sub s ||
  match s with
  | EmptyString => false
  | String _ s' => includes s' sub
  end.

(** [String.prototype.split] on a one-character separator. *)
Fixpoint split (sep : ascii) (s : string) : list string :=
  match s with
  | EmptyString => [""]
  | String c s' =>
      if Ascii.eqb c sep then "" :: split sep s'
      else match split sep s' with
           | [] => [String c ""]
           | h :: t => String c h :: t
           end
  end.

(** [String.prototype.startsWith] is [String.prefix]; the text after a
    known prefix of length [n] is [substring(n)]. *)
Fixpoint drop (n : nat) (s : string) : string :=
  match n, s with
  | O, _ => s
  | S n', String _ s' => drop n' s'
  | S _, EmptyString => EmptyString
  end.

(** The white space and line terminators that [String.prototype.trim]
    strips, among the code units below 256: TAB, LF, VT, FF, CR, SP, NBSP. *)
Definition is_whitespace (c : ascii) : bool :=
  let n := nat_of_ascii c in
  (Nat.leb 9 n && Nat.leb n 13) || Nat.eqb n 32 || Nat.eqb n 160.

Fixpoint trimStart (s : string) : string :=
  match s with
  | EmptyString => EmptyString
  | String c rest => if is_whitespace c then trimStart rest else s
  end.

Fixpoint trimEnd (s : string) : string :=
  match s with
  | EmptyString => EmptyString
  | String c rest =>
      let rest' := trimEnd rest in
      if (rest' =? "") && is_whitespace c then EmptyString else String c rest'
  end.

Definition trim (s : string) : string := trimEnd (trimStart s).

(** Error objects: [name], [message] and [code].  An errno exception of a
    child process has a code and is otherwise a plain [Error]; the errors
    Node throws from its own argument checks ([ERR_INVALID_ARG_TYPE],
    [ERR_INVALID_ARG_VALUE], ...) are [node_internal]: they have a code too
    and print it. *)
Record Error : Type := mkError {
  name : string;
  message : string;
  code : option string;
  node_internal : bool
}.

Definition new_Error (msg : string) : Error :=
  {| name := "Error"; message := msg; code := None; node_internal := false |}.

Definition code_text (e : Error) : string :=
  match code e with
  | Some c => c
  | None => ""
  end.

(** What a template literal makes of an interpolated error: its
    [toString()].  [Error.prototype.toString] gives [name: message], or the
    one of the two that is not empty; Node's internal errors override it with
    [name [code]: message]. *)
Definition Error_toString (e : Error) : string :=
  if node_internal e then name e ++ " [" ++ code_text e ++ "]: " ++ message e
  else if name e =? "" then message e
  else if message e =? "" then name e
  else name e ++ ": " ++ message e.

(** JSON values handed to [res.json]. *)
Inductive Json : Type :=
| JNull
| JBool (b : bool)
| JStr (s : string)
| JArr (items : list Json)
| JObj (fields : list (string * Json)).

(** A property whose value is [undefined] is left out by [JSON.stringify]. *)
Definition field (key : string) (v : JsVal) : list (string * Json) :=
  match v with
  | undefined => []
  | str s => [(key, JStr s)]
  end.

End Js.

Import Js.
Coercion Js.str : string >-> Js.JsVal.

(* ================================================================== *)
(** * Node's [path] module (POSIX flavour)

  [path.join] and [path.basename] belong to the Node runtime.  They are
  modelled segment by segment: [normalizeString] of Node walks the text and
  acts at each separator on the segment just read, which is what
  [push_segment] does on the segments of [Js.split "/"]. *)

Module Path.

Definition sep : ascii := "/"%char.

(** The segment stack is kept innermost-first. *)
Definition push_segment (allowAboveRoot : bool) (res : list string) (seg : string)
  : list string :=
  if seg =? "" then res
  else if seg =? "." then res
  else if seg =? ".." then
    match res with
    | [] => if allowAboveRoot then [".."] else []
    | top :: rest =>
        if top =? ".." then (if allowAboveRoot then ".." :: res else res)
        else rest
    end
  else seg :: res.

Definition normalizeString (path : string) (allowAboveRoot : bool) : string :=
  String.concat "/"
    (rev (fold_left (push_segment allowAboveRoot) (Js.split sep path) [])).

Definition isAbsolute (path : string) : bool := String.prefix "/" path.

Fixpoint endsWithSep (path : string) : bool :=
  match path with
  | EmptyString => false
  | String c EmptyString => Ascii.eqb c sep
  | String _ rest => endsWithSep rest
  end.

Definition normalize (path : string) : string :=
  if path =? "" then "."
  else
    let abs := isAbsolute path in
    let trailingSeparator := endsWithSep path in
    let p := normalizeString path (negb abs) in
    if p =? "" then
      (if abs then "/" else if trailingSeparator then "./" else ".")
    else
      let p := if trailingSeparator then p ++ "/" else p in
      if abs then "/" ++ p else p.

(** [path.join(...args)]: empty arguments are skipped. *)
Definition join (args : list string) : string :=
  match filter (fun a => negb (a =? "")) args with
  | [] => "."
  | parts => normalize (String.concat "/" parts)
  end.

(** [path.basename(path)]: the last non-empty segment. *)
Definition basename (path : string) : string :=
  fold_left (fun acc seg => if seg =? "" then acc else seg) (Js.split sep path) "".

Definition dquote : string := String (Ascii.ascii_of_nat 34) "".

(** Both functions validate their arguments and throw this on a non-string. *)
Definition ERR_INVALID_ARG_TYPE : Js.Error :=
  {| Js.name := "TypeError";
     Js.message := "The " ++ dquote ++ "path" ++ dquote
                 ++ " argument must be of type string. Received undefined";
     Js.code := Some "ERR_INVALID_ARG_TYPE";
     Js.node_internal := true |}.

End Path.

(* ================================================================== *)
(** * Promises and [async] functions *)

Module Async.

(** The state of a promise, and the outcome of awaiting it: a promise that
    is never settled keeps its awaiter suspended for ever. *)
Inductive Settled (A : Type) : Type :=
| pending
| resolved (a : A)
| rejected (e : Js.Error).

Arguments pending {A}.
Arguments resolved {A} a.
Arguments rejected {A} e.

(** One [spawn('git', args, {cwd, env})]. *)
Record Call : Type := mkCall {
  call_args : list Js.JsVal;
  call_cwd : Js.JsVal
}.

(** One [console.warn(label, error)] or [console.error(label, error)]: the
    method, the label and the error object handed over.  How the console
    prints the error (its inspection, with the stack trace) is the
    console's business and is not modelled. *)
Inductive ConsoleMethod : Type :=
| console_warn
| console_error.

Record ConsoleCall : Type := mkConsoleCall {
  console_method : ConsoleMethod;
  console_label : string;
  console_argument : Js.Error
}.

(** What the code leaves behind: the processes it spawned and the calls it
    made to the console, oldest first. *)
Record World : Type := mkWorld {
  spawned_calls : list Call;
  console : list ConsoleCall
}.

Definition Async (A : Type) : Type := World -> Settled A * World.

Definition ret {A} (a : A) : Async A := fun w => (resolved a, w).

Definition throw {A} (e : Js.Error) : Async A := fun w => (rejected e, w).

(** [await m] followed by the rest of the function body. *)
Definition bind {A B} (m : Async A) (k : A -> Async B) : Async B :=
  fun w =>
    match m w with
    | (resolved a, w') => k a w'
    | (rejected e, w') => (rejected e, w')
    | (pending, w') => (pending, w')
    end.

(** [try { body } catch (e) { handler }]. *)
Definition try_catch {A} (body : Async A) (handler : Js.Error -> Async A) : Async A :=
  fun w =>
    match body w with
    | (rejected e, w') => handler e w'
    | other => other
    end.

Definition console_write (method : ConsoleMethod) (label : string) (e : Js.Error)
  : Async unit :=
  fun w => (resolved tt,
            {| spawned_calls := spawned_calls w;
               console := console w ++
                          [{| console_method := method; console_label := label;
                              console_argument := e |}] |}).

Definition record_call (c : Call) (w : World) : World :=
  {| spawned_calls := spawned_calls w ++ [c]; console := console w |}.

End Async.

Import Async.

Notation "x <- m ;; k" := (Async.bind m (fun x => k))
  (at level 61, m at next level, right associativity).
Notation "m ;;; k" := (Async.bind m (fun _ => k))
  (at level 61, right associativity).

(* ================================================================== *)
(** * Result types ([../types]) *)

(** Modelled from the spec: the type declarations of [../types] are not part
    of the sources at hand; the fields are those of the spec's data model. *)
Module Worktree.
Record t : Type := mk {
  path : string;
  branch : string;
  isMain : bool;
  isLocked : bool;
  head : string
}.

Definition toJSON (w : t) : Js.Json :=
  JObj [("path", JStr (path w)); ("branch", JStr (branch w));
        ("isMain", JBool (isMain w)); ("isLocked", JBool (isLocked w));
        ("head", JStr (head w))].
End Worktree.

(** Modelled from the spec: one entry of [git status --porcelain=v1]. *)
Module GitStatus.
Record t : Type := mk {
  path : string;
  indexState : ascii;
  worktreeState : ascii
}.

Definition toJSON (s : t) : Js.Json :=
  JObj [("path", JStr (path s));
        ("indexState", JStr (String (indexState s) ""));
        ("worktreeState", JStr (String (worktreeState s) ""))].
End GitStatus.

(** [{ path, branch }]; [branch] is the caller's value, handed back as is. *)
Module WorktreeAddResult.
Record t : Type := mk {
  path : string;
  branch : Js.JsVal
}.

Definition toJSON (r : t) : Js.Json :=
  JObj (("path", JStr (path r)) :: Js.field "branch" (branch r)).
End WorktreeAddResult.

(** [{ success, warning? }]. *)
Module WorktreeRemoveResult.
Record t : Type := mk {
  success : bool;
  warning : option string
}.

Definition toJSON (r : t) : Js.Json :=
  JObj (("success", JBool (success r)) ::
        match warning r with
        | Some text => [("warning", JStr text)]
        | None => []
        end).
End WorktreeRemoveResult.

(* ================================================================== *)
(** * The worktree-list parser ([./git-parser]) *)

Module GitParser.

Definition newline : ascii := Ascii.ascii_of_nat 10.

(** A line is [key value] or a bare [key]: the key runs up to the first space. *)
Fixpoint split_key (line : string) : string * option string :=
  match line with
  | EmptyString => ("", None)
  | String c rest =>
      if Ascii.eqb c " "%char then ("", Some rest)
      else let (k, v) := split_key rest in (String c k, v)
  end.

Definition value_or_empty (v : option string) : string :=
  match v with
  | Some s => s
  | None => ""
  end.

(** A branch ref loses its [refs/heads/] prefix. *)
Definition strip_heads (ref : string) : string :=
  if String.prefix "refs/heads/" ref then Js.drop 11 ref else ref.

(** The record under construction and those already closed, newest first. *)
Record State : Type := mkState {
  closed : list Worktree.t;
  current : option Worktree.t
}.

Definition flush (st : State) : State :=
  match current st with
  | Some w => {| closed := w :: closed st; current := None |}
  | None => st
  end.

(** A record without a [branch] line is a detached HEAD: its branch is the
    literal [detached]. *)
Definition fresh (path : string) : Worktree.t :=
  {| Worktree.path := path; Worktree.branch := "detached";
     Worktree.isMain := false; Worktree.isLocked := false;
     Worktree.head := "" |}.

Definition set_attribute (key : string) (value : option string) (w : Worktree.t)
  : Worktree.t :=
  if key =? "HEAD" then
    {| Worktree.path := Worktree.path w; Worktree.branch := Worktree.branch w;
       Worktree.isMain := Worktree.isMain w; Worktree.isLocked := Worktree.isLocked w;
       Worktree.head := value_or_empty value |}
  else if key =? "branch" then
    {| Worktree.path := Worktree.path w;
       Worktree.branch := strip_heads (value_or_empty value);
       Worktree.isMain := Worktree.isMain w; Worktree.isLocked := Worktree.isLocked w;
       Worktree.head := Worktree.head w |}
  else if key =? "locked" then
    {| Worktree.path := Worktree.path w; Worktree.branch := Worktree.branch w;
       Worktree.isMain := Worktree.isMain w; Worktree.isLocked := true;
       Worktree.head := Worktree.head w |}
  else w.

Definition parse_line (st : State) (line : string) : State :=
  if line =? "" then flush st
  else
    let (key, value) := split_key line in
    if key =? "worktree" then
      {| closed := closed (flush st); current := Some (fresh (value_or_empty value)) |}
    else
      match current st with
      | Some w => {| closed := closed st; current := Some (set_attribute key value w) |}
      | None => st
      end.

Definition set_main (b : bool) (w : Worktree.t) : Worktree.t :=
  {| Worktree.path := Worktree.path w; Worktree.branch := Worktree.branch w;
     Worktree.isMain := b; Worktree.isLocked := Worktree.isLocked w;
     Worktree.head := Worktree.head w |}.

Definition mark_main (ws : list Worktree.t) : list Worktree.t :=
  match ws with
  | [] => []
  | first :: others => set_main true first :: map (set_main false) others
  end.

(** Modelled from the spec: [parseWorktrees] is imported from [./git-parser],
    which is not part of the sources at hand.  Following the spec, the text is
    a sequence of records separated by blank lines, each a sequence of lines
    [key value] or [key]; a [worktree] line opens a record, [HEAD], [branch]
    and [locked] fill it ([bare] is recognised and carries no field), and the
    first record is the main worktree. *)
Definition parseWorktrees (output : string) : list Worktree.t :=
  let st := fold_left parse_line (Js.split newline output)
                      {| closed := []; current := None |} in
  mark_main (rev (closed (flush st))).

End GitParser.

(* ================================================================== *)
(** * [packages/core/src/utils/git.ts] *)

Module Git.

(** What a child process emits, in the order the event loop delivers it. *)
Inductive ChildEvent : Type :=
| stdout_data (data : string)
| stderr_data (data : string)
| close (exit_code : option Z)
| error (e : Js.Error).

(** [spawn] either throws on its arguments or returns a child. *)
Inductive SpawnResult : Type :=
| spawn_throws (e : Js.Error)
| spawned (events : list ChildEvent).

(** The operating system: what spawning git with these arguments in this
    directory does, given the processes spawned before. *)
Definition Os : Type := list Async.Call -> list Js.JsVal -> Js.JsVal -> SpawnResult.

(** The closure of the promise executor: the two buffers and the promise. *)
Record Listener : Type := mkListener {
  stdout : string;
  stderr : string;
  promise : Async.Settled string
}.

(** [resolve] and [reject] act on a pending promise only. *)
Definition settle (l : Listener) (outcome : Async.Settled string) : Listener :=
  match promise l with
  | pending => {| stdout := stdout l; stderr := stderr l; promise := outcome |}
  | _ => l
  end.

Definition not_found_message (args : list Js.JsVal) (env_PATH : Js.JsVal) : string :=
  "Git executable not found. Please ensure git is installed and available in your PATH."
  ++ String GitParser.newline ""
  ++ "Command attempted: git " ++ Js.join " " args ++ String GitParser.newline ""
  ++ "Current PATH: " ++ Js.template env_PATH.

Definition on_event (args : list Js.JsVal) (env_PATH : Js.JsVal)
  (l : Listener) (ev : ChildEvent) : Listener :=
  match ev with
  | stdout_data data =>
      {| stdout := stdout l ++ data; stderr := stderr l; promise := promise l |}
  | stderr_data data =>
      {| stdout := stdout l; stderr := stderr l ++ data; promise := promise l |}
  | close exit_code =>
      match exit_code with
      | Some 0%Z => settle l (resolved (stdout l))
      | _ =>
          settle l (rejected (Js.new_Error
            (Js.or_else (stderr l) ("Git command failed: git " ++ Js.join " " args))))
      end
  | error e =>
      match Js.code e with
      | Some c =>
          if c =? "ENOENT" then
            settle l (rejected (Js.new_Error (not_found_message args env_PATH)))
          else settle l (rejected e)
      | None => settle l (rejected e)
      end
  end.

Definition listen (args : list Js.JsVal) (env_PATH : Js.JsVal)
  (events : list ChildEvent) : Listener :=
  fold_left (on_event args env_PATH) events
            {| stdout := ""; stderr := ""; promise := pending |}.

Section Operations.

Variable os : Os.
(** [process.env.PATH] and [process.cwd()]. *)
Variable env_PATH : Js.JsVal.
Variable process_cwd : string.
(** [parseGitStatus] comes from [./git-parser]. *)
Variable parseGitStatus : string -> list GitStatus.t.

Definition executeGitCommand (args : list Js.JsVal) (cwd : Js.JsVal) : Async string :=
  fun w =>
    let w' := Async.record_call {| call_args := args; call_cwd := cwd |} w in
    match os (spawned_calls w) args cwd with
    | spawn_throws e => (rejected e, w')
    | spawned events => (promise (listen args env_PATH events), w')
    end.

Definition listWorktrees (projectPath : Js.JsVal) : Async (list Worktree.t) :=
  output <- executeGitCommand [str "worktree"; str "list"; str "--porcelain"] projectPath ;;
  Async.ret (GitParser.parseWorktrees output).

Definition getGitStatus (worktreePath : Js.JsVal) : Async (list GitStatus.t) :=
  output <- executeGitCommand [str "status"; str "--porcelain=v1"] worktreePath ;;
  Async.ret (parseGitStatus output).

Definition getGitDiff (worktreePath filePath : Js.JsVal) : Async string :=
  let args := ([str "diff"] ++ (if Js.truthy filePath then [filePath] else []))%list in
  executeGitCommand args worktreePath.

Definition getGitDiffStaged (worktreePath filePath : Js.JsVal) : Async string :=
  let args := ([str "diff"; str "--staged"]
               ++ (if Js.truthy filePath then [filePath] else []))%list in
  executeGitCommand args worktreePath.

Definition addWorktree (projectPath branchName : Js.JsVal)
  : Async WorktreeAddResult.t :=
  match projectPath with
  | undefined => Async.throw Path.ERR_INVALID_ARG_TYPE
  | str project =>
      let worktreePath :=
        Path.join [project; ".."; Path.basename project ++ "-" ++ Js.template branchName] in
      executeGitCommand
        [str "worktree"; str "add"; str "-b"; branchName; str worktreePath] projectPath ;;;
      Async.ret {| WorktreeAddResult.path := worktreePath;
                   WorktreeAddResult.branch := branchName |}
  end.

Definition removeWorktree (projectPath worktreePath branchName : Js.JsVal)
  : Async WorktreeRemoveResult.t :=
  Async.try_catch
    (executeGitCommand
       [str "worktree"; str "remove"; worktreePath; str "--force"] projectPath ;;;
     Async.try_catch
       (executeGitCommand [str "branch"; str "-D"; branchName] projectPath ;;;
        Async.ret {| WorktreeRemoveResult.success := true;
                     WorktreeRemoveResult.warning := None |})
       (fun branchError =>
          Async.console_write console_warn
            "Failed to delete branch but worktree was removed:" branchError ;;;
          Async.ret {| WorktreeRemoveResult.success := true;
                       WorktreeRemoveResult.warning :=
                         Some ("Worktree removed but failed to delete branch: "
                               ++ Js.Error_toString branchError) |}))
    (fun error =>
       Async.throw (Js.new_Error ("Failed to remove worktree: " ++ Js.Error_toString error))).

Definition isGitRepository (path : Js.JsVal) : Async bool :=
  Async.try_catch
    (executeGitCommand [str "rev-parse"; str "--git-dir"] path ;;;
     Async.ret true)
    (fun _ => Async.ret false).

Definition getCurrentBranch (worktreePath : Js.JsVal) : Async string :=
  output <- executeGitCommand [str "rev-parse"; str "--abbrev-ref"; str "HEAD"]
              worktreePath ;;
  Async.ret (Js.trim output).

Definition isGitAvailable : Async bool :=
  Async.try_catch
    (executeGitCommand [str "--version"] (str process_cwd) ;;;
     Async.ret true)
    (fun error =>
       if Js.includes (Js.message error) "Git executable not found" then Async.ret false
       else Async.ret true).

End Operations.

End Git.

(* ================================================================== *)
(** * [apps/server/src/api/rest.ts] *)

Module Rest.

(** The fields the git routes read from [req.body]; each may be missing. *)
Record Body : Type := mkBody {
  projectPath : Js.JsVal;
  worktreePath : Js.JsVal;
  branchName : Js.JsVal;
  filePath : Js.JsVal
}.

(** [req.query.path]: absent, a string, or what the query parser builds for
    a repeated or bracketed parameter (an array or an object). *)
Inductive QueryVal : Type :=
| q_undefined
| q_string (s : string)
| q_other.

Record Response : Type := mkResponse {
  status : nat;
  body : Js.Json
}.

(** [res.json(payload)] and [res.status(code).json(payload)]. *)
Definition res_json (payload : Js.Json) : Response :=
  {| status := 200; body := payload |}.

Definition res_status_json (code : nat) (payload : Js.Json) : Response :=
  {| status := code; body := payload |}.

(** [{ error: (error as Error).message }]. *)
Definition error_message_body (e : Js.Error) : Js.Json :=
  JObj [("error", JStr (Js.message e))].

(** The result of [validatePath]. *)
Record Validation : Type := mkValidation {
  valid : bool;
  validation_error : Js.JsVal
}.

Definition Validation_toJSON (v : Validation) : Js.Json :=
  JObj (("valid", JBool (valid v)) :: Js.field "error" (validation_error v)).

(** The routes under [/api/git]. *)
Inductive GitRoute : Type :=
| POST_git_worktrees
| POST_git_status
| POST_git_diff
| POST_git_worktree_add
| DELETE_git_worktree.

Section Routes.

Variable os : Git.Os.
Variable env_PATH : Js.JsVal.
Variable parseGitStatus : string -> list GitStatus.t.
(** [validatePath] and [listDirectories] are filesystem helpers of
    [@vibetree/core]; their listing is passed to [res.json] untouched. *)
Variable validatePath : string -> Async Validation.
Variable listDirectories : string -> Async Js.Json.

Definition post_git_worktrees (req : Body) : Async Response :=
  Async.try_catch
    (worktrees <- Git.listWorktrees os env_PATH (projectPath req) ;;
     Async.ret (res_json (JArr (map Worktree.toJSON worktrees))))
    (fun error => Async.ret (res_status_json 500 (error_message_body error))).

Definition post_git_status (req : Body) : Async Response :=
  Async.try_catch
    (status <- Git.getGitStatus os env_PATH parseGitStatus (worktreePath req) ;;
     Async.ret (res_json (JArr (map GitStatus.toJSON status))))
    (fun error => Async.ret (res_status_json 500 (error_message_body error))).

Definition post_git_diff (req : Body) : Async Response :=
  Async.try_catch
    (diff <- Git.getGitDiff os env_PATH (worktreePath req) (filePath req) ;;
     Async.ret (res_json (JObj [("diff", JStr diff)])))
    (fun error => Async.ret (res_status_json 500 (error_message_body error))).

Definition post_git_worktree_add (req : Body) : Async Response :=
  Async.try_catch
    (result <- Git.addWorktree os env_PATH (projectPath req) (branchName req) ;;
     Async.ret (res_json (WorktreeAddResult.toJSON result)))
    (fun error => Async.ret (res_status_json 500 (error_message_body error))).

Definition delete_git_worktree (req : Body) : Async Response :=
  Async.try_catch
    (result <- Git.removeWorktree os env_PATH
                 (projectPath req) (worktreePath req) (branchName req) ;;
     Async.ret (res_json (WorktreeRemoveResult.toJSON result)))
    (fun error => Async.ret (res_status_json 500 (error_message_body error))).

(** The router: which handler [setupRestRoutes] registers for which route. *)
Definition git_route (r : GitRoute) : Body -> Async Response :=
  match r with
  | POST_git_worktrees => post_git_worktrees
  | POST_git_status => post_git_status
  | POST_git_diff => post_git_diff
  | POST_git_worktree_add => post_git_worktree_add
  | DELETE_git_worktree => delete_git_worktree
  end.

(** [!path || typeof path !== 'string' || path.length > 1000]. *)
Definition invalid_path_parameter (path : QueryVal) : bool :=
  match path with
  | q_undefined => true
  | q_other => true
  | q_string s => (s =? "") || Nat.ltb 1000 (String.length s)
  end.

(** The branch under the guard runs on strings only: the guard has sent
    every other value away. *)
Definition invalid_path_response : Response :=
  res_status_json 400 (JObj [("error", JStr "Invalid path parameter")]).

Definition get_directories (path : QueryVal) : Async Response :=
  Async.try_catch
    (if invalid_path_parameter path then Async.ret invalid_path_response
     else
       match path with
       | q_string p =>
           validation <- validatePath p ;;
           if negb (valid validation) then
             Async.ret (res_status_json 400
               (JObj [("error", JStr "Invalid path");
                      ("details",
                       JStr (if Js.truthy (validation_error validation)
                             then Js.template (validation_error validation)
                             else "Path is not accessible"))]))
           else
             directories <- listDirectories p ;;
             Async.ret (res_json (JObj [("path", JStr p);
                                        ("directories", directories);
                                        ("success", JBool true)]))
       | _ => Async.ret invalid_path_response
       end)
    (fun error =>
       Async.console_write console_error "Directory listing error:" error ;;;
       Async.ret (res_status_json 500 (JObj [("error", JStr "Directory operation failed")]))).

Definition get_directories_validate (path : QueryVal) : Async Response :=
  Async.try_catch
    (if invalid_path_parameter path then Async.ret invalid_path_response
     else
       match path with
       | q_string p =>
           validation <- validatePath p ;;
           Async.ret (res_json (JObj [("path", JStr p);
                                      ("validation", Validation_toJSON validation);
                                      ("success", JBool true)]))
       | _ => Async.ret invalid_path_response
       end)
    (fun error =>
       Async.console_write console_error "Path validation error:" error ;;;
       Async.ret (res_status_json 500 (JObj [("error", JStr "Path validation failed")]))).

End Routes.

End Rest.

(* ================================================================== *)
(** * Vocabulary of the statements *)

Module Vocabulary.

(** [sub] occurs in [s]. *)
Definition Contains (s sub : string) : Prop :=
  exists before after, s = before ++ sub ++ after.

(** Output events only: the child has neither closed nor failed yet. *)
Definition is_data (ev : Git.ChildEvent) : bool :=
  match ev with
  | Git.stdout_data _ | Git.stderr_data _ => true
  | _ => false
  end.

Definition only_data (events : list Git.ChildEvent) : bool := forallb is_data events.

(** The text accumulated on each stream. *)
Fixpoint stdout_text (events : list Git.ChildEvent) : string :=
  match events with
  | [] => ""
  | Git.stdout_data d :: rest => d ++ stdout_text rest
  | _ :: rest => stdout_text rest
  end.

Fixpoint stderr_text (events : list Git.ChildEvent) : string :=
  match events with
  | [] => ""
  | Git.stderr_data d :: rest => d ++ stderr_text rest
  | _ :: rest => stderr_text rest
  end.

(** [s] has no occurrence of the character [c]. *)
Fixpoint free_of (c : ascii) (s : string) : bool :=
  match s with
  | EmptyString => true
  | String x rest => negb (Ascii.eqb x c) && free_of c rest
  end.




(** A record of [git worktree list --porcelain] as git writes it: the
    [worktree <path>] line, the attribute lines, and the blank line that
    ends the record. *)
Record PorcelainRecord : Type := mkPorcelainRecord {
  rec_path : string;
  rec_attributes : list string
}.

(** An attribute line is not blank, holds no line break and has another
    key than [worktree]. *)
Definition attribute_line (line : string) : bool :=
  negb (line =? "") && free_of GitParser.newline line
  && negb (fst (GitParser.split_key line) =? "worktree").

Definition valid_record (r : PorcelainRecord) : bool :=
  free_of GitParser.newline (rec_path r) && forallb attribute_line (rec_attributes r).

Definition record_lines (r : PorcelainRecord) : list string :=
  ("worktree " ++ rec_path r) :: (rec_attributes r ++ [""])%list.

(** Each line is written with its line break. *)
Fixpoint render_lines (lines : list string) : string :=
  match lines with
  | [] => ""
  | line :: rest => line ++ String GitParser.newline (render_lines rest)
  end.

Definition render (records : list PorcelainRecord) : string :=
  render_lines (flat_map record_lines records).

(** The argument lists of the two commands of [removeWorktree]. *)
Definition remove_args (worktreePath : Js.JsVal) : list Js.JsVal :=
  [str "worktree"; str "remove"; worktreePath; str "--force"].

Definition branch_args (branchName : Js.JsVal) : list Js.JsVal :=
  [str "branch"; str "-D"; branchName].

(** What a git route computes and hands to [res.json]: its git operation on
    the fields of the body, and the JSON form of the result. *)
Definition git_operation (os : Git.Os) (env_PATH : Js.JsVal)
  (parseGitStatus : string -> list GitStatus.t)
  (r : Rest.GitRoute) (req : Rest.Body) : Async Js.Json :=
  match r with
  | Rest.POST_git_worktrees =>
      worktrees <- Git.listWorktrees os env_PATH (Rest.projectPath req) ;;
      Async.ret (JArr (map Worktree.toJSON worktrees))
  | Rest.POST_git_status =>
      status <- Git.getGitStatus os env_PATH parseGitStatus (Rest.worktreePath req) ;;
      Async.ret (JArr (map GitStatus.toJSON status))
  | Rest.POST_git_diff =>
      diff <- Git.getGitDiff os env_PATH (Rest.worktreePath req) (Rest.filePath req) ;;
      Async.ret (JObj [("diff", JStr diff)])
  | Rest.POST_git_worktree_add =>
      result <- Git.addWorktree os env_PATH (Rest.projectPath req) (Rest.branchName req) ;;
      Async.ret (WorktreeAddResult.toJSON result)
  | Rest.DELETE_git_worktree =>
      result <- Git.removeWorktree os env_PATH (Rest.projectPath req)
                  (Rest.worktreePath req) (Rest.branchName req) ;;
      Async.ret (WorktreeRemoveResult.toJSON result)
  end.

(** The first process a git route spawns, from the fields as they came.
    Only [addWorktree] on a body without [projectPath] spawns none:
    [path.basename] throws before. *)
Definition first_call (r : Rest.GitRoute) (req : Rest.Body) : option Call :=
  match r with
  | Rest.POST_git_worktrees =>
      Some {| call_args := [str "worktree"; str "list"; str "--porcelain"];
              call_cwd := Rest.projectPath req |}
  | Rest.POST_git_status =>
      Some {| call_args := [str "status"; str "--porcelain=v1"];
              call_cwd := Rest.worktreePath req |}
  | Rest.POST_git_diff =>
      Some {| call_args :=
                (str "diff" ::
                 if Js.truthy (Rest.filePath req) then [Rest.filePath req] else []);
              call_cwd := Rest.worktreePath req |}
  | Rest.POST_git_worktree_add =>
      match Rest.projectPath req with
      | undefined => None
      | str project =>
          Some {| call_args :=
                    [str "worktree"; str "add"; str "-b"; Rest.branchName req;
                     str (Path.join [project; "..";
                                     Path.basename project ++ "-"
                                     ++ Js.template (Rest.branchName req)])];
                  call_cwd := Rest.projectPath req |}
      end
  | Rest.DELETE_git_worktree =>
      Some {| call_args := remove_args (Rest.worktreePath req);
              call_cwd := Rest.projectPath req |}
  end.

Definition empty_world : World := {| spawned_calls := []; console := [] |}.

End Vocabulary.

Import Vocabulary.

(** Concrete operating systems, used to run the code on examples. *)
Module Scenario.

(** Every command prints a line and exits with status 0. *)
Definition healthy : Git.Os :=
  fun _ _ _ => Git.spawned [Git.stdout_data "git version 2.43.0"; Git.close (Some 0%Z)].

(** Every command complains on stderr and exits with status 128. *)
Definition failing : Git.Os :=
  fun _ _ _ =>
    Git.spawned [Git.stderr_data "fatal: not a git repository"; Git.close (Some 128%Z)].

(** There is no git executable: [spawn] reports [ENOENT]; the close event
    that follows finds the promise settled. *)
Definition spawn_ENOENT : Js.Error :=
  {| Js.name := "Error"; Js.message := "spawn git ENOENT"; Js.code := Some "ENOENT";
     Js.node_internal := false |}.

Definition not_installed : Git.Os :=
  fun _ _ _ => Git.spawned [Git.error spawn_ENOENT; Git.close None].




(** The executable is there and may not be run. *)
Definition spawn_EACCES : Js.Error :=
  {| Js.name := "Error"; Js.message := "spawn git EACCES"; Js.code := Some "EACCES";
     Js.node_internal := false |}.

Definition not_permitted : Git.Os :=
  fun _ _ _ => Git.spawned [Git.error spawn_EACCES].

(** The first command succeeds, every later one fails: a worktree that can
    be removed and a branch that cannot be deleted. *)
Definition branch_undeletable : Git.Os :=
  fun earlier _ _ =>
    match earlier with
    | [] => Git.spawned [Git.close (Some 0%Z)]
    | _ => Git.spawned [Git.stderr_data "error: branch 'feat' not found."; Git.close (Some 1%Z)]
    end.

(** A git that exits with status 1 after printing, on stderr, the very
    words the executor uses for a missing executable. *)
Definition misleading : Git.Os :=
  fun _ _ _ =>
    Git.spawned [Git.stderr_data "Git executable not found"; Git.close (Some 1%Z)].

(** A path of 1001 characters. *)
Definition long_path : string := string_of_list_ascii (repeat "a"%char 1001).

(** A body with no field at all. *)
Definition empty_body : Rest.Body :=
  {| Rest.projectPath := undefined; Rest.worktreePath := undefined;
     Rest.branchName := undefined; Rest.filePath := undefined |}.

(** Filesystem helpers that accept every path and list nothing. *)
Definition validatePath_accepts : string -> Async Rest.Validation :=
  fun _ => Async.ret {| Rest.valid := true; Rest.validation_error := undefined |}.

Definition listDirectories_empty : string -> Async Js.Json :=
  fun _ => Async.ret (JArr []).

(** A git that waits at a credential prompt and never exits. *)
Definition hanging : Git.Os :=
  fun _ _ _ => Git.spawned [Git.stderr_data "Username for 'https://example.org': "].

(** A git that prints the branch name, with its line break, in two chunks. *)
Definition on_main : Git.Os :=
  fun _ _ _ =>
    Git.spawned [Git.stdout_data "ma";
                 Git.stdout_data ("in" ++ String GitParser.newline "");
                 Git.close (Some 0%Z)].

(** A path of exactly 1000 characters. *)
Definition longest_path : string := string_of_list_ascii (repeat "a"%char 1000).

(** A path check that refuses without saying why, and helpers that throw. *)
Definition validatePath_refuses : string -> Async Rest.Validation :=
  fun _ => Async.ret {| Rest.valid := false; Rest.validation_error := undefined |}.

Definition EACCES : Js.Error :=
  {| Js.name := "Error"; Js.message := "EACCES: permission denied, scandir '/root'";
     Js.code := Some "EACCES"; Js.node_internal := false |}.

Definition validatePath_throws : string -> Async Rest.Validation :=
  fun _ => Async.throw EACCES.

Definition listDirectories_throws : string -> Async Js.Json :=
  fun _ => Async.throw EACCES.

(** Two worktrees, the second on a detached HEAD and locked. *)
Definition two_worktrees : list PorcelainRecord :=
  [ {| rec_path := "/a/proj";
       rec_attributes := ["HEAD 1f3a"; "branch refs/heads/main"] |};
    {| rec_path := "/a/proj-feat";
       rec_attributes := ["HEAD 9c0e"; "detached"; "locked"] |} ].

Definition lists_two_worktrees : Git.Os :=
  fun _ _ _ => Git.spawned [Git.stdout_data (render two_worktrees); Git.close (Some 0%Z)].

End Scenario.

(* ================================================================== *)
(** * Facts about strings *)

Module StringFacts.

Lemma append_assoc (a b c : string) : (a ++ b) ++ c = a ++ (b ++ c).
Proof.
  induction a as [|ch a IH]; simpl; [reflexivity | now rewrite IH].
Qed.

Lemma append_empty_r (a : string) : a ++ "" = a.
Proof.
  induction a as [|ch a IH]; simpl; [reflexivity | now rewrite IH].
Qed.

Lemma prefix_append (a b : string) : String.prefix a (a ++ b) = true.
Proof.
  induction a as [|ch a IH]; simpl.
  - now destruct b.
  - destruct (ascii_dec ch ch) as [_|ne]; [exact IH | now elim ne].
Qed.

Lemma prefix_split (a s : string) :
  String.prefix a s = true -> exists rest, s = a ++ rest.
Proof.
  revert s; induction a as [|ch a IH]; intros s H.
  - now exists s.
  - destruct s as [|c s]; simpl in H; [discriminate|].
    destruct (ascii_dec ch c) as [->|]; [|discriminate].
    destruct (IH s H) as [rest ->]. now exists rest.
Qed.

(** [Js.includes] decides [Contains]. *)
Lemma includes_Contains (s sub : string) :
  Js.includes s sub = true <-> Contains s sub.
Proof.
  split.
  - induction s as [|c s IH]; cbn [Js.includes]; intros H.
    + rewrite orb_false_r in H. apply prefix_split in H as [rest ->].
      now exists "", rest.
    + apply orb_true_iff in H as [H|H].
      * apply prefix_split in H as [rest ->]. now exists "", rest.
      * destruct (IH H) as (before & after & ->).
        now exists (String c before), after.
  - intros (before & after & ->).
    induction before as [|c before IH].
    + change ("" ++ sub ++ after) with (sub ++ after).
      destruct (sub ++ after) eqn:E; cbn [Js.includes];
        rewrite <- E, prefix_append; reflexivity.
    + change (String c before ++ sub ++ after)
        with (String c (before ++ sub ++ after)).
      cbn [Js.includes]. rewrite IH. apply orb_true_r.
Qed.

Lemma prefix_includes (sub rest : string) : Js.includes (sub ++ rest) sub = true.
Proof.
  destruct (sub ++ rest) eqn:E; cbn [Js.includes];
    rewrite <- E, prefix_append; reflexivity.
Qed.

Lemma Contains_suffix (lead s : string) : Contains (lead ++ s) s.
Proof. exists lead, "". now rewrite append_empty_r. Qed.

Lemma Contains_append_l (lead s sub : string) :
  Contains s sub -> Contains (lead ++ s) sub.
Proof.
  intros (before & after & ->). exists (lead ++ before), after.
  now rewrite append_assoc.
Qed.

Lemma Contains_append_r (s tail sub : string) :
  Contains s sub -> Contains (s ++ tail) sub.
Proof.
  intros (before & after & ->). exists before, (after ++ tail).
  now rewrite !append_assoc.
Qed.

Lemma Contains_empty (s : string) : Contains s "".
Proof. now exists "", s. Qed.

(** The text of an error shows in its rendering. *)
Lemma Error_toString_Contains (e : Js.Error) :
  Contains (Js.Error_toString e) (Js.message e).
Proof.
  unfold Js.Error_toString.
  destruct (Js.node_internal e).
  { do 4 apply Contains_append_l. exists "", "". now rewrite append_empty_r. }
  destruct (Js.name e =? "").
  - exists "", "". now rewrite append_empty_r.
  - destruct (Js.message e =? "") eqn:E.
    + apply String.eqb_eq in E. rewrite E. apply Contains_empty.
    + apply Contains_append_l, Contains_suffix.
Qed.

End StringFacts.

(* ================================================================== *)
(** * The command executor *)

Module ExecutorSpec.

Import StringFacts.

Section Listener.

Variable args : list Js.JsVal.
Variable env_PATH : Js.JsVal.

Local Abbreviation run := (fold_left (Git.on_event args env_PATH)).

(** Output events fill the buffers and leave the promise alone. *)
Lemma run_data (ds : list Git.ChildEvent) (l : Git.Listener) :
  only_data ds = true ->
  run ds l = {| Git.stdout := Git.stdout l ++ stdout_text ds;
                Git.stderr := Git.stderr l ++ stderr_text ds;
                Git.promise := Git.promise l |}.
Proof.
  revert l; induction ds as [|ev ds IH]; intros l H.
  - simpl. rewrite !append_empty_r. now destruct l.
  - simpl in H. apply andb_true_iff in H as [Hev Hds].
    destruct ev; try discriminate; simpl; rewrite (IH _ Hds); simpl;
      now rewrite append_assoc.
Qed.

(** A settled promise stays as it is, whatever the child emits next. *)
Lemma on_event_settled (l : Git.Listener) (ev : Git.ChildEvent) :
  Git.promise l <> pending ->
  Git.promise (Git.on_event args env_PATH l ev) = Git.promise l.
Proof.
  intros H. unfold Git.on_event, Git.settle.
  destruct l as [out err p]; simpl in *.
  destruct p; [now elim H | |].
  - destruct ev as [d|d|c|e]; try reflexivity.
    + now destruct c as [[| |]|].
    + destruct (Js.code e) as [c|]; [destruct (c =? "ENOENT")|]; reflexivity.
  - destruct ev as [d|d|c|e']; try reflexivity.
    + now destruct c as [[| |]|].
    + destruct (Js.code e') as [c|]; [destruct (c =? "ENOENT")|]; reflexivity.
Qed.

Lemma run_settled (events : list Git.ChildEvent) (l : Git.Listener) :
  Git.promise l <> pending ->
  Git.promise (run events l) = Git.promise l.
Proof.
  revert l; induction events as [|ev events IH]; intros l H; simpl.
  - reflexivity.
  - rewrite IH; rewrite on_event_settled; auto.
Qed.

(** The first closing or failing event after the output decides. *)
Lemma listen_decided (ds rest : list Git.ChildEvent) (ev : Git.ChildEvent) :
  only_data ds = true ->
  is_data ev = false ->
  Git.promise (Git.listen args env_PATH (ds ++ ev :: rest)) =
  Git.promise (Git.on_event args env_PATH
                 {| Git.stdout := stdout_text ds; Git.stderr := stderr_text ds;
                    Git.promise := pending |} ev).
Proof.
  intros Hds Hev. unfold Git.listen.
  rewrite fold_left_app, (run_data ds _ Hds). simpl fold_left.
  apply run_settled.
  destruct ev as [d|d|c|e]; try discriminate; simpl.
  - destruct c as [[| |]|]; discriminate.
  - destruct (Js.code e) as [c|]; [destruct (c =? "ENOENT")|]; discriminate.
Qed.

(** While the child only writes, the promise stays pending. *)
Lemma listen_only_data (ds : list Git.ChildEvent) :
  only_data ds = true ->
  Git.promise (Git.listen args env_PATH ds) = pending.
Proof.
  intros H. unfold Git.listen. now rewrite (run_data ds _ H).
Qed.

End Listener.

Section Executor.

Variable os : Git.Os.
Variable env_PATH : Js.JsVal.

Local Abbreviation executeGitCommand := (Git.executeGitCommand os env_PATH).

(** The executor spawns one process and leaves the console alone. *)
Lemma executeGitCommand_world (args : list Js.JsVal) (cwd : Js.JsVal) (w : World) :
  snd (executeGitCommand args cwd w) =
  Async.record_call {| call_args := args; call_cwd := cwd |} w.
Proof.
  unfold Git.executeGitCommand.
  now destruct (os (spawned_calls w) args cwd).
Qed.

(** C2. When the child, after any output, closes: the promise resolves
    with the accumulated stdout if the exit status is 0, and only then;
    with any other status (or none, after a signal) it rejects with the
    accumulated stderr, or, stderr being empty, with
    [Git command failed: git <args joined by spaces>]. *)
Theorem executeGitCommand_exit_status
  (args : list Js.JsVal) (cwd : Js.JsVal) (w : World)
  (ds rest : list Git.ChildEvent) (exit_code : option Z) :
  only_data ds = true ->
  os (spawned_calls w) args cwd = Git.spawned (ds ++ Git.close exit_code :: rest) ->
  let outcome := fst (executeGitCommand args cwd w) in
  (exit_code = Some 0%Z -> outcome = resolved (stdout_text ds)) /\
  (exit_code <> Some 0%Z ->
     outcome = rejected (Js.new_Error
       (if stderr_text ds =? "" then "Git command failed: git " ++ Js.join " " args
        else stderr_text ds))) /\
  ((exists out, outcome = resolved out) <-> exit_code = Some 0%Z).
Proof.
  intros Hds Hos outcome.
  assert (E : outcome =
              match exit_code with
              | Some 0%Z => resolved (stdout_text ds)
              | _ => rejected (Js.new_Error
                       (Js.or_else (stderr_text ds)
                          ("Git command failed: git " ++ Js.join " " args)))
              end).
  { subst outcome. unfold Git.executeGitCommand. rewrite Hos. simpl fst.
    rewrite (listen_decided args env_PATH ds rest (Git.close exit_code) Hds eq_refl).
    now destruct exit_code as [[| |]|]. }
  rewrite E. unfold Js.or_else. repeat split.
  - now intros ->.
  - intros Hne. destruct exit_code as [[| |]|]; try reflexivity. now elim Hne.
  - intros [out Hout]. destruct exit_code as [[| |]|]; try discriminate. reflexivity.
  - intros ->. now exists (stdout_text ds).
Qed.


End Executor.

Lemma executeGitCommand_exit_status_example :
  fst (Git.executeGitCommand Scenario.healthy (str "/usr/bin")
         [str "--version"] (str "/repo") empty_world)
  = resolved "git version 2.43.0"
  /\
  fst (Git.executeGitCommand Scenario.failing (str "/usr/bin")
         [str "status"] (str "/tmp") empty_world)
  = rejected (Js.new_Error "fatal: not a git repository").
Proof.
  split.
  - apply (executeGitCommand_exit_status Scenario.healthy (str "/usr/bin")
             [str "--version"] (str "/repo") empty_world
             [Git.stdout_data "git version 2.43.0"] [] (Some 0%Z)
             eq_refl eq_refl).
    reflexivity.
  - apply (executeGitCommand_exit_status Scenario.failing (str "/usr/bin")
             [str "status"] (str "/tmp") empty_world
             [Git.stderr_data "fatal: not a git repository"] [] (Some 128%Z)
             eq_refl eq_refl).
    discriminate.
Defined.



End ExecutorSpec.

(* ================================================================== *)
(** * Worktree removal and the two probes *)

Module OperationsSpec.

Import StringFacts.

Section Operations.

Variable os : Git.Os.
Variable env_PATH : Js.JsVal.
Variable process_cwd : string.

Local Abbreviation executeGitCommand := (Git.executeGitCommand os env_PATH).
Local Abbreviation removeWorktree := (Git.removeWorktree os env_PATH).
Local Abbreviation isGitRepository := (Git.isGitRepository os env_PATH).
Local Abbreviation isGitAvailable := (Git.isGitAvailable os env_PATH process_cwd).

(** [removeWorktree], case by case on its two commands. *)
Lemma removeWorktree_cases (projectPath worktreePath branchName : Js.JsVal) (w : World) :
  let removal := executeGitCommand (remove_args worktreePath) projectPath w in
  let deletion := executeGitCommand (branch_args branchName) projectPath (snd removal) in
  fst (removeWorktree projectPath worktreePath branchName w) =
  match fst removal with
  | pending => pending
  | rejected e =>
      rejected (Js.new_Error ("Failed to remove worktree: " ++ Js.Error_toString e))
  | resolved _ =>
      match fst deletion with
      | pending => pending
      | resolved _ =>
          resolved {| WorktreeRemoveResult.success := true;
                      WorktreeRemoveResult.warning := None |}
      | rejected e =>
          resolved {| WorktreeRemoveResult.success := true;
                      WorktreeRemoveResult.warning :=
                        Some ("Worktree removed but failed to delete branch: "
                              ++ Js.Error_toString e) |}
      end
  end.
Proof.
  intros removal deletion. subst deletion removal.
  unfold Git.removeWorktree, Async.try_catch, Async.bind, remove_args, branch_args.
  destruct (executeGitCommand _ projectPath w) as [[ | out | e] w1]; simpl;
    try reflexivity.
  destruct (executeGitCommand _ projectPath w1) as [[ | out' | e'] w2]; reflexivity.
Qed.

(** C1. If the worktree is removed and the branch deletion then fails
    with [e], [removeWorktree] resolves with [success = true] and a warning
    that starts with [Worktree removed but failed to delete branch: ], is not
    empty and holds the text of [e]; if the removal itself fails with [e], it
    rejects with a new error whose message starts with
    [Failed to remove worktree: ] and holds the text of [e]. *)
Theorem removeWorktree_partial_failure
  (projectPath worktreePath branchName : Js.JsVal) (w : World) :
  let removal := executeGitCommand (remove_args worktreePath) projectPath w in
  let deletion := executeGitCommand (branch_args branchName) projectPath (snd removal) in
  (forall out e,
     fst removal = resolved out ->
     fst deletion = rejected e ->
     exists text,
       fst (removeWorktree projectPath worktreePath branchName w) =
         resolved {| WorktreeRemoveResult.success := true;
                     WorktreeRemoveResult.warning := Some text |} /\
       String.prefix "Worktree removed but failed to delete branch: " text = true /\
       text <> "" /\
       Contains text (Js.message e)) /\
  (forall e,
     fst removal = rejected e ->
     exists text,
       fst (removeWorktree projectPath worktreePath branchName w) =
         rejected (Js.new_Error text) /\
       String.prefix "Failed to remove worktree: " text = true /\
       Contains text (Js.message e)).
Proof.
  intros removal deletion.
  pose proof (removeWorktree_cases projectPath worktreePath branchName w) as E.
  cbv zeta in E. fold removal in E. fold deletion in E. split.
  - intros out e Hrem Hdel. rewrite Hrem, Hdel in E.
    eexists. split; [exact E|]. split; [apply prefix_append|].
    split; [discriminate|].
    apply Contains_append_l, Error_toString_Contains.
  - intros e Hrem. rewrite Hrem in E.
    eexists. split; [exact E|]. split; [apply prefix_append|].
    apply Contains_append_l, Error_toString_Contains.
Qed.

(** C9. Whatever [removeWorktree] resolves with has [success = true]; a
    failed removal command never resolves, it rejects. *)
Theorem removeWorktree_resolves_success
  (projectPath worktreePath branchName : Js.JsVal) (w : World) :
  (forall r,
     fst (removeWorktree projectPath worktreePath branchName w) = resolved r ->
     WorktreeRemoveResult.success r = true) /\
  (forall e,
     fst (executeGitCommand (remove_args worktreePath) projectPath w) = rejected e ->
     exists e', fst (removeWorktree projectPath worktreePath branchName w) = rejected e').
Proof.
  pose proof (removeWorktree_cases projectPath worktreePath branchName w) as E.
  cbv zeta in E. split.
  - intros r Hr. rewrite Hr in E.
    destruct (fst (executeGitCommand (remove_args worktreePath) projectPath w));
      try discriminate.
    destruct (fst (executeGitCommand (branch_args branchName) projectPath _));
      try discriminate; injection E as ->; reflexivity.
  - intros e He. rewrite He in E. eexists. exact E.
Qed.

(** C7. [isGitRepository] resolves with [true] when the probe resolves
    and with [false] when the probe rejects, whatever the error; it never
    rejects. *)
Theorem isGitRepository_collapses (path : Js.JsVal) (w : World) :
  let probe := executeGitCommand [str "rev-parse"; str "--git-dir"] path w in
  (forall out, fst probe = resolved out ->
     fst (isGitRepository path w) = resolved true) /\
  (forall e, fst probe = rejected e ->
     fst (isGitRepository path w) = resolved false) /\
  (forall e, fst (isGitRepository path w) <> rejected e).
Proof.
  intros probe. subst probe.
  unfold Git.isGitRepository, Async.try_catch, Async.bind, Async.ret.
  destruct (executeGitCommand _ path w) as [[ | out | e] w1]; simpl;
    repeat split; intros; congruence.
Qed.

(** [isGitAvailable], case by case on its probe. *)
Lemma isGitAvailable_cases (w : World) :
  fst (isGitAvailable w) =
  match fst (executeGitCommand [str "--version"] (str process_cwd) w) with
  | pending => pending
  | resolved _ => resolved true
  | rejected e =>
      resolved (negb (Js.includes (Js.message e) "Git executable not found"))
  end.
Proof.
  unfold Git.isGitAvailable, Async.try_catch, Async.bind, Async.ret.
  destruct (executeGitCommand _ (str process_cwd) w) as [[ | out | e] w1]; simpl;
    try reflexivity.
  now destruct (Js.includes (Js.message e) "Git executable not found").
Qed.

(** C4, as the code has it. [isGitAvailable] resolves with [false]
    exactly when the probe rejects with an error whose message holds the
    words [Git executable not found].  The missing-executable failure always
    does; a probe that closes, with any status, after writing to stderr
    nothing that holds these words gives [true]. *)
Theorem isGitAvailable_by_message (w : World) :
  let probe := executeGitCommand [str "--version"] (str process_cwd) w in
  (fst (isGitAvailable w) = resolved false <->
     exists e, fst probe = rejected e /\
               Contains (Js.message e) "Git executable not found") /\
  (forall ds rest e,
     only_data ds = true ->
     os (spawned_calls w) [str "--version"] (str process_cwd)
       = Git.spawned (ds ++ Git.error e :: rest) ->
     Js.code e = Some "ENOENT" ->
     fst (isGitAvailable w) = resolved false) /\
  (forall ds rest exit_code,
     only_data ds = true ->
     os (spawned_calls w) [str "--version"] (str process_cwd)
       = Git.spawned (ds ++ Git.close exit_code :: rest) ->
     Js.includes (stderr_text ds) "Git executable not found" = false ->
     fst (isGitAvailable w) = resolved true).
Proof.
  intros probe. pose proof (isGitAvailable_cases w) as E. fold probe in E.
  split; [|split].
  - rewrite E. split.
    + destruct (fst probe) as [ | out | e]; try discriminate.
      intros H. exists e. split; [reflexivity|].
      apply includes_Contains.
      destruct (Js.includes (Js.message e) _); [reflexivity | discriminate].
    + intros (e & -> & Hc). apply includes_Contains in Hc. now rewrite Hc.
  - intros ds rest e Hds Hos Hcode.
    assert (P : fst probe =
                rejected (Js.new_Error
                  (Git.not_found_message [str "--version"] env_PATH))).
    { subst probe. unfold Git.executeGitCommand. rewrite Hos. simpl fst.
      rewrite (ExecutorSpec.listen_decided _ _ ds rest (Git.error e) Hds eq_refl).
      simpl. now rewrite Hcode. }
    rewrite E, P. cbn [Js.message Js.new_Error].
    assert (M : Js.includes (Git.not_found_message [str "--version"] env_PATH)
                  "Git executable not found" = true).
    { apply includes_Contains. unfold Git.not_found_message.
      apply Contains_append_r.
      now exists "", ". Please ensure git is installed and available in your PATH.". }
    now rewrite M.
  - intros ds rest exit_code Hds Hos Hclean.
    assert (P : fst probe =
                match exit_code with
                | Some 0%Z => resolved (stdout_text ds)
                | _ => rejected (Js.new_Error
                         (Js.or_else (stderr_text ds) "Git command failed: git --version"))
                end).
    { subst probe. unfold Git.executeGitCommand. rewrite Hos. simpl fst.
      rewrite (ExecutorSpec.listen_decided _ _ ds rest (Git.close exit_code) Hds eq_refl).
      now destruct exit_code as [[| |]|]. }
    rewrite E, P.
    assert (M : Js.includes
                  (Js.or_else (stderr_text ds) "Git command failed: git --version")
                  "Git executable not found" = false).
    { unfold Js.or_else. destruct (stderr_text ds =? ""); [reflexivity | exact Hclean]. }
    destruct exit_code as [[| |]|]; cbn [Js.message Js.new_Error];
      try reflexivity; now rewrite M.
Qed.

End Operations.

Lemma removeWorktree_partial_failure_example :
  (exists text,
     fst (Git.removeWorktree Scenario.branch_undeletable (str "/usr/bin")
            (str "/a/proj") (str "/a/proj-feat") (str "feat") empty_world) =
       resolved {| WorktreeRemoveResult.success := true;
                   WorktreeRemoveResult.warning := Some text |} /\
     String.prefix "Worktree removed but failed to delete branch: " text = true /\
     text <> "" /\
     Contains text "error: branch 'feat' not found.") /\
  (exists text,
     fst (Git.removeWorktree Scenario.failing (str "/usr/bin")
            (str "/a/proj") (str "/a/proj-feat") (str "feat") empty_world) =
       rejected (Js.new_Error text) /\
     String.prefix "Failed to remove worktree: " text = true /\
     Contains text "fatal: not a git repository").
Proof.
  split.
  - apply (proj1 (removeWorktree_partial_failure Scenario.branch_undeletable
                    (str "/usr/bin") (str "/a/proj") (str "/a/proj-feat") (str "feat")
                    empty_world)
             "" (Js.new_Error "error: branch 'feat' not found."));
      reflexivity.
  - apply (proj2 (removeWorktree_partial_failure Scenario.failing
                    (str "/usr/bin") (str "/a/proj") (str "/a/proj-feat") (str "feat")
                    empty_world)
             (Js.new_Error "fatal: not a git repository"));
      reflexivity.
Defined.

Lemma removeWorktree_resolves_success_example :
  WorktreeRemoveResult.success
    {| WorktreeRemoveResult.success := true;
       WorktreeRemoveResult.warning :=
         Some "Worktree removed but failed to delete branch: Error: error: branch 'feat' not found." |}
  = true /\
  (exists e',
     fst (Git.removeWorktree Scenario.not_installed (str "/usr/bin")
            (str "/a/proj") (str "/a/proj-feat") (str "feat") empty_world) = rejected e').
Proof.
  split.
  - apply (proj1 (removeWorktree_resolves_success Scenario.branch_undeletable
                    (str "/usr/bin") (str "/a/proj") (str "/a/proj-feat") (str "feat")
                    empty_world)).
    reflexivity.
  - apply (proj2 (removeWorktree_resolves_success Scenario.not_installed
                    (str "/usr/bin") (str "/a/proj") (str "/a/proj-feat") (str "feat")
                    empty_world)
             (Js.new_Error (Git.not_found_message
                              (remove_args (str "/a/proj-feat")) (str "/usr/bin")))).
    reflexivity.
Defined.

Lemma isGitRepository_collapses_example :
  fst (Git.isGitRepository Scenario.healthy (str "/usr/bin") (str "/a/proj") empty_world)
    = resolved true /\
  fst (Git.isGitRepository Scenario.failing (str "/usr/bin") (str "/tmp") empty_world)
    = resolved false /\
  fst (Git.isGitRepository Scenario.not_installed (str "/usr/bin") (str "/a/proj") empty_world)
    = resolved false /\
  fst (Git.isGitRepository Scenario.not_permitted (str "/usr/bin") (str "/a/proj") empty_world)
    = resolved false.
Proof.
  split; [|split; [|split]].
  - apply (proj1 (isGitRepository_collapses Scenario.healthy (str "/usr/bin")
                    (str "/a/proj") empty_world) "git version 2.43.0").
    reflexivity.
  - apply (proj1 (proj2 (isGitRepository_collapses Scenario.failing (str "/usr/bin")
                           (str "/tmp") empty_world))
             (Js.new_Error "fatal: not a git repository")).
    reflexivity.
  - apply (proj1 (proj2 (isGitRepository_collapses Scenario.not_installed (str "/usr/bin")
                           (str "/a/proj") empty_world))
             (Js.new_Error (Git.not_found_message
                              [str "rev-parse"; str "--git-dir"] (str "/usr/bin")))).
    reflexivity.
  - apply (proj1 (proj2 (isGitRepository_collapses Scenario.not_permitted (str "/usr/bin")
                           (str "/a/proj") empty_world))
             Scenario.spawn_EACCES).
    reflexivity.
Defined.

(** C4, as stated, fails: a probe that exits with status 1 after writing
    [Git executable not found] to stderr is a non-zero exit, not a missing
    executable, and [isGitAvailable] answers [false]. *)
Lemma isGitAvailable_nonzero_exit_false :
  Scenario.misleading [] [str "--version"] (str "/srv") =
    Git.spawned [Git.stderr_data "Git executable not found"; Git.close (Some 1%Z)] /\
  fst (Git.isGitAvailable Scenario.misleading (str "/usr/bin") "/srv" empty_world)
    = resolved false /\
  ~ (forall (os : Git.Os) (env_PATH : Js.JsVal) (process_cwd : string) (w : World)
            (ds rest : list Git.ChildEvent) (exit_code : option Z),
       only_data ds = true ->
       os (spawned_calls w) [str "--version"] (str process_cwd)
         = Git.spawned (ds ++ Git.close exit_code :: rest) ->
       exit_code <> Some 0%Z ->
       fst (Git.isGitAvailable os env_PATH process_cwd w) = resolved true).
Proof.
  split; [reflexivity|]. split; [reflexivity|].
  intros claim.
  specialize (claim Scenario.misleading (str "/usr/bin") "/srv" empty_world
                [Git.stderr_data "Git executable not found"] [] (Some 1%Z)
                eq_refl eq_refl).
  assert (H : fst (Git.isGitAvailable Scenario.misleading (str "/usr/bin") "/srv"
                     empty_world) = resolved true) by (apply claim; discriminate).
  discriminate H.
Qed.

Lemma isGitAvailable_by_message_example :
  fst (Git.isGitAvailable Scenario.not_installed (str "/usr/bin") "/srv" empty_world)
    = resolved false /\
  fst (Git.isGitAvailable Scenario.failing (str "/usr/bin") "/srv" empty_world)
    = resolved true /\
  fst (Git.isGitAvailable Scenario.misleading (str "/usr/bin") "/srv" empty_world)
    = resolved false.
Proof.
  split; [|split].
  - apply (proj1 (proj2 (isGitAvailable_by_message Scenario.not_installed
                           (str "/usr/bin") "/srv" empty_world))
             [] [Git.close None] Scenario.spawn_ENOENT);
      reflexivity.
  - apply (proj2 (proj2 (isGitAvailable_by_message Scenario.failing
                           (str "/usr/bin") "/srv" empty_world))
             [Git.stderr_data "fatal: not a git repository"] [] (Some 128%Z));
      reflexivity.
  - apply (proj1 (isGitAvailable_by_message Scenario.misleading
                    (str "/usr/bin") "/srv" empty_world)).
    exists (Js.new_Error "Git executable not found").
    split; [reflexivity|]. now exists "", "".
Defined.

End OperationsSpec.

(* ================================================================== *)
(** * Paths and [addWorktree] *)

Module AddWorktreeSpec.

Import StringFacts.

Lemma split_not_nil (c : ascii) (s : string) : Js.split c s <> [].
Proof.
  destruct s as [|x s]; simpl; [discriminate|].
  destruct (Ascii.eqb x c); [discriminate|].
  destruct (Js.split c s); discriminate.
Qed.

(** A text without separator is one segment. *)
Lemma split_free (c : ascii) (s : string) :
  free_of c s = true -> Js.split c s = [s].
Proof.
  induction s as [|x s IH]; simpl; intros H; [reflexivity|].
  apply andb_true_iff in H as [Hx Hs].
  apply negb_true_iff in Hx. rewrite Hx, (IH Hs). reflexivity.
Qed.

(** A separator cuts the segments of the whole into those of the parts. *)
Lemma split_append (c : ascii) (a b : string) :
  Js.split c (a ++ String c b) = (Js.split c a ++ Js.split c b)%list.
Proof.
  induction a as [|x a IH]; simpl.
  - now rewrite Ascii.eqb_refl.
  - destruct (Ascii.eqb x c); rewrite IH; [reflexivity|].
    destruct (Js.split c a) eqn:E; [now apply split_not_nil in E | reflexivity].
Qed.





















Section AddWorktree.

Variable os : Git.Os.
Variable env_PATH : Js.JsVal.

Local Abbreviation executeGitCommand := (Git.executeGitCommand os env_PATH).
Local Abbreviation addWorktree := (Git.addWorktree os env_PATH).


End AddWorktree.



End AddWorktreeSpec.

(* ================================================================== *)
(** * The worktree-list parser *)

Module ParserSpec.

Import StringFacts.

Lemma free_of_lines (lines : list string) (rest : string) :
  forallb (free_of GitParser.newline) lines = true ->
  Js.split GitParser.newline (render_lines lines ++ rest) =
  (lines ++ Js.split GitParser.newline rest)%list.
Proof.
  induction lines as [|line lines IH]; simpl; intros H; [reflexivity|].
  apply andb_true_iff in H as [Hl Hls].
  rewrite append_assoc.
  change (String GitParser.newline (render_lines lines) ++ rest)
    with (String GitParser.newline (render_lines lines ++ rest)).
  rewrite AddWorktreeSpec.split_append, (AddWorktreeSpec.split_free _ _ Hl), (IH Hls).
  reflexivity.
Qed.

Lemma set_attribute_path (key : string) (value : option string) (w : Worktree.t) :
  Worktree.path (GitParser.set_attribute key value w) = Worktree.path w.
Proof.
  unfold GitParser.set_attribute.
  destruct (key =? "HEAD"); [reflexivity|].
  destruct (key =? "branch"); [reflexivity|].
  destruct (key =? "locked"); reflexivity.
Qed.

(** Attribute lines fill the open record and close nothing. *)
Lemma parse_attributes (lines : list string) (done : list Worktree.t) (w : Worktree.t) :
  forallb attribute_line lines = true ->
  exists w',
    fold_left GitParser.parse_line lines
      {| GitParser.closed := done; GitParser.current := Some w |} =
    {| GitParser.closed := done; GitParser.current := Some w' |} /\
    Worktree.path w' = Worktree.path w.
Proof.
  revert w; induction lines as [|line lines IH]; intros w H.
  - now exists w.
  - simpl in H. apply andb_true_iff in H as [Hl Hls].
    unfold attribute_line in Hl.
    apply andb_true_iff in Hl as [Hl Hkey].
    apply andb_true_iff in Hl as [Hblank _].
    apply negb_true_iff in Hblank, Hkey.
    cbn [fold_left]. unfold GitParser.parse_line at 2. rewrite Hblank.
    destruct (GitParser.split_key line) as [key value]. simpl in Hkey.
    rewrite Hkey. cbn [GitParser.current GitParser.closed].
    destruct (IH (GitParser.set_attribute key value w) Hls) as (w' & E & P).
    exists w'. split; [exact E|]. now rewrite P, set_attribute_path.
Qed.

Lemma split_key_worktree (path : string) :
  GitParser.split_key ("worktree " ++ path) = ("worktree", Some path).
Proof. reflexivity. Qed.

(** A whole record closes one worktree, with the path of the record. *)
Lemma parse_record (r : PorcelainRecord) (done : list Worktree.t) :
  valid_record r = true ->
  exists w,
    fold_left GitParser.parse_line (record_lines r)
      {| GitParser.closed := done; GitParser.current := None |} =
    {| GitParser.closed := w :: done; GitParser.current := None |} /\
    Worktree.path w = rec_path r.
Proof.
  intros H. unfold valid_record in H. apply andb_true_iff in H as [_ Hattrs].
  unfold record_lines. cbn [fold_left].
  assert (First : GitParser.parse_line
                    {| GitParser.closed := done; GitParser.current := None |}
                    ("worktree " ++ rec_path r) =
                  {| GitParser.closed := done;
                     GitParser.current := Some (GitParser.fresh (rec_path r)) |}).
  { unfold GitParser.parse_line. rewrite split_key_worktree. reflexivity. }
  rewrite First, fold_left_app.
  destruct (parse_attributes (rec_attributes r) done (GitParser.fresh (rec_path r)) Hattrs)
    as (w & E & P).
  rewrite E. exists w. split; [reflexivity | exact P].
Qed.

Lemma parse_records (records : list PorcelainRecord) (done : list Worktree.t) :
  forallb valid_record records = true ->
  exists ws,
    fold_left GitParser.parse_line (flat_map record_lines records)
      {| GitParser.closed := done; GitParser.current := None |} =
    {| GitParser.closed := (rev ws ++ done)%list; GitParser.current := None |} /\
    map Worktree.path ws = map rec_path records.
Proof.
  revert done; induction records as [|r records IH]; intros done H.
  - now exists [].
  - simpl in H. apply andb_true_iff in H as [Hr Hrs].
    cbn [flat_map]. rewrite fold_left_app.
    destruct (parse_record r done Hr) as (w & E & P). rewrite E.
    destruct (IH (w :: done) Hrs) as (ws & E' & P'). rewrite E'.
    exists (w :: ws). split.
    + cbn [rev]. now rewrite <- app_assoc.
    + cbn [map]. now rewrite P, P'.
Qed.

Lemma record_lines_free (records : list PorcelainRecord) :
  forallb valid_record records = true ->
  forallb (free_of GitParser.newline) (flat_map record_lines records) = true.
Proof.
  induction records as [|r records IH]; intros H; [reflexivity|].
  simpl in H. apply andb_true_iff in H as [Hr Hrs].
  cbn [flat_map]. rewrite forallb_app, (IH Hrs), andb_true_r.
  unfold valid_record in Hr. apply andb_true_iff in Hr as [Hpath Hattrs].
  unfold record_lines. cbn [forallb]. apply andb_true_iff. split.
  - exact Hpath.
  - rewrite forallb_app. apply andb_true_iff. split; [|reflexivity].
    rewrite forallb_forall in Hattrs |- *. intros line Hin.
    specialize (Hattrs line Hin). unfold attribute_line in Hattrs.
    apply andb_true_iff in Hattrs as [Hattrs _].
    now apply andb_true_iff in Hattrs as [_ ?].
Qed.

(** The parser on a well-formed text, before the main worktree is marked. *)
Lemma parseWorktrees_render (records : list PorcelainRecord) :
  forallb valid_record records = true ->
  exists ws,
    GitParser.parseWorktrees (render records) = GitParser.mark_main ws /\
    map Worktree.path ws = map rec_path records.
Proof.
  intros H. unfold GitParser.parseWorktrees, render.
  rewrite <- (append_empty_r (render_lines _)).
  rewrite (free_of_lines _ "" (record_lines_free records H)).
  rewrite fold_left_app.
  destruct (parse_records records [] H) as (ws & E & P). rewrite E.
  exists ws. split; [|exact P].
  cbn. now rewrite app_nil_r, rev_involutive.
Qed.

Lemma mark_main_path (ws : list Worktree.t) :
  map Worktree.path (GitParser.mark_main ws) = map Worktree.path ws.
Proof.
  destruct ws as [|first others]; [reflexivity|].
  cbn [GitParser.mark_main map]. f_equal.
  induction others as [|o others IH]; [reflexivity|].
  cbn [map]. now rewrite IH.
Qed.

Lemma mark_main_nth (ws : list Worktree.t) (i : nat) (w : Worktree.t) :
  nth_error (GitParser.mark_main ws) i = Some w ->
  Worktree.isMain w = Nat.eqb i 0.
Proof.
  destruct ws as [|first others]; [now destruct i|].
  destruct i as [|i]; cbn [GitParser.mark_main nth_error].
  - now intros [= <-].
  - rewrite nth_error_map.
    destruct (nth_error others i); [|discriminate]. now intros [= <-].
Qed.

(** C6. A text of [N] well-formed records, each ended by a blank line,
    parses to [N] worktrees, with the paths of the records in order; the
    first one, and no other, is the main worktree.  [listWorktrees] resolves
    with this list when git writes that text and exits with status 0. *)
Theorem parseWorktrees_counts_records (records : list PorcelainRecord) :
  forallb valid_record records = true ->
  let worktrees := GitParser.parseWorktrees (render records) in
  List.length worktrees = List.length records /\
  map Worktree.path worktrees = map rec_path records /\
  (forall i w, nth_error worktrees i = Some w -> Worktree.isMain w = Nat.eqb i 0) /\
  (forall (os : Git.Os) (env_PATH projectPath : Js.JsVal) (w : World)
          (ds rest : list Git.ChildEvent),
     only_data ds = true ->
     stdout_text ds = render records ->
     os (spawned_calls w) [str "worktree"; str "list"; str "--porcelain"] projectPath
       = Git.spawned (ds ++ Git.close (Some 0%Z) :: rest) ->
     fst (Git.listWorktrees os env_PATH projectPath w) = resolved worktrees).
Proof.
  intros H worktrees.
  destruct (parseWorktrees_render records H) as (ws & E & P).
  fold worktrees in E.
  assert (Paths : map Worktree.path worktrees = map rec_path records).
  { now rewrite E, mark_main_path. }
  split; [|split; [exact Paths|split]].
  - rewrite <- (length_map Worktree.path worktrees), Paths. apply length_map.
  - intros i w0 Hn. rewrite E in Hn. exact (mark_main_nth ws i w0 Hn).
  - intros os env_PATH projectPath w0 ds rest Hds Hout Hos.
    unfold Git.listWorktrees, Async.bind, Async.ret, Git.executeGitCommand.
    rewrite Hos.
    rewrite (ExecutorSpec.listen_decided _ _ ds rest (Git.close (Some 0%Z)) Hds eq_refl).
    cbn. now rewrite Hout.
Qed.

Lemma parseWorktrees_counts_records_example :
  List.length (GitParser.parseWorktrees (render Scenario.two_worktrees)) = 2 /\
  map Worktree.isMain (GitParser.parseWorktrees (render Scenario.two_worktrees))
    = [true; false] /\
  fst (Git.listWorktrees Scenario.lists_two_worktrees (str "/usr/bin") (str "/a/proj")
         empty_world)
    = resolved (GitParser.parseWorktrees (render Scenario.two_worktrees)).
Proof.
  pose proof (parseWorktrees_counts_records Scenario.two_worktrees eq_refl)
    as (Hlen & _ & _ & Hlist).
  split; [exact Hlen|]. split; [reflexivity|].
  exact (Hlist Scenario.lists_two_worktrees (str "/usr/bin") (str "/a/proj") empty_world
           [Git.stdout_data (render Scenario.two_worktrees)] [] eq_refl eq_refl eq_refl).
Defined.

End ParserSpec.

(* ================================================================== *)
(** * The REST handlers *)

Module RestSpec.

Section Directories.

Variable validatePath : string -> Async Rest.Validation.
Variable listDirectories : string -> Async Js.Json.

Local Abbreviation get_directories := (Rest.get_directories validatePath listDirectories).

(** C8. [GET /api/directories] answers 400 with an [error] field when
    the [path] parameter is missing, empty, or longer than 1000 characters;
    neither filesystem helper runs. *)
Theorem get_directories_bad_path (path : Rest.QueryVal) (w : World) :
  path = Rest.q_undefined \/ path = Rest.q_string "" \/
  (exists s, path = Rest.q_string s /\ 1000 < String.length s) ->
  get_directories path w =
    (resolved {| Rest.status := 400;
                 Rest.body := JObj [("error", JStr "Invalid path parameter")] |}, w).
Proof.
  intros [-> | [-> | (s & -> & Hlen)]]; try reflexivity.
  unfold Rest.get_directories, Async.try_catch, Rest.invalid_path_parameter.
  apply Nat.ltb_lt in Hlen. rewrite Hlen, orb_true_r. reflexivity.
Qed.

End Directories.

Lemma get_directories_bad_path_example :
  let bad_request :=
    (resolved {| Rest.status := 400;
                 Rest.body := JObj [("error", JStr "Invalid path parameter")] |},
     empty_world) in
  Rest.get_directories Scenario.validatePath_accepts Scenario.listDirectories_empty
    Rest.q_undefined empty_world = bad_request /\
  Rest.get_directories Scenario.validatePath_accepts Scenario.listDirectories_empty
    (Rest.q_string "") empty_world = bad_request /\
  Rest.get_directories Scenario.validatePath_accepts Scenario.listDirectories_empty
    (Rest.q_string Scenario.long_path) empty_world = bad_request.
Proof.
  split; [|split]; apply get_directories_bad_path.
  - now left.
  - right. now left.
  - right. right. exists Scenario.long_path. split; [reflexivity|].
    apply Nat.ltb_lt. vm_compute. reflexivity.
Defined.

Section GitRoutes.

Variable os : Git.Os.
Variable env_PATH : Js.JsVal.
Variable parseGitStatus : string -> list GitStatus.t.

Local Abbreviation git_route := (Rest.git_route os env_PATH parseGitStatus).
Local Abbreviation git_operation := (Vocabulary.git_operation os env_PATH parseGitStatus).

(** The shape all five handlers share: [res.json] of the result, or status
    500 with the message of what was thrown. *)
Lemma respond_cases {A : Type} (operation : Async A) (toJSON : A -> Js.Json) (w : World) :
  Async.try_catch
    (x <- operation ;; Async.ret (Rest.res_json (toJSON x)))
    (fun error => Async.ret (Rest.res_status_json 500 (Rest.error_message_body error))) w =
  match (x <- operation ;; Async.ret (toJSON x)) w with
  | (resolved payload, w') => (resolved (Rest.res_json payload), w')
  | (rejected e, w') =>
      (resolved (Rest.res_status_json 500 (Rest.error_message_body e)), w')
  | (pending, w') => (pending, w')
  end.
Proof.
  unfold Async.try_catch, Async.bind, Async.ret.
  now destruct (operation w) as [[ | x | e] w'].
Qed.

Lemma git_route_cases (r : Rest.GitRoute) (req : Rest.Body) (w : World) :
  git_route r req w =
  match git_operation r req w with
  | (resolved payload, w') => (resolved (Rest.res_json payload), w')
  | (rejected e, w') =>
      (resolved (Rest.res_status_json 500 (Rest.error_message_body e)), w')
  | (pending, w') => (pending, w')
  end.
Proof.
  destruct r; apply respond_cases.
Qed.

Ltac run_command :=
  match goal with
  | |- context [Git.executeGitCommand ?o ?p ?args ?cwd ?w] =>
      let E := fresh "E" in
      pose proof (ExecutorSpec.executeGitCommand_world o p args cwd w) as E;
      destruct (Git.executeGitCommand o p args cwd w) as [[ | ? | ?] ?];
      simpl in E; subst
  end.

(** Whatever the body, a git route goes straight to git. *)
Lemma git_route_spawns (r : Rest.GitRoute) (req : Rest.Body) (w : World) (c : Call) :
  first_call r req = Some c ->
  exists more,
    spawned_calls (snd (git_route r req w)) = (spawned_calls w ++ c :: more)%list.
Proof.
  destruct r; cbn [first_call Rest.git_route].
  - intros [= <-].
    unfold Rest.post_git_worktrees, Git.listWorktrees, Async.try_catch, Async.bind, Async.ret.
    run_command; now exists [].
  - intros [= <-].
    unfold Rest.post_git_status, Git.getGitStatus, Async.try_catch, Async.bind, Async.ret.
    run_command; now exists [].
  - intros [= <-].
    unfold Rest.post_git_diff, Git.getGitDiff, Async.try_catch, Async.bind, Async.ret.
    cbn [app]. run_command; now exists [].
  - destruct (Rest.projectPath req) as [|project] eqn:P; [discriminate|].
    intros [= <-].
    unfold Rest.post_git_worktree_add, Git.addWorktree, Async.try_catch, Async.bind,
      Async.ret.
    rewrite P. run_command; now exists [].
  - intros [= <-].
    unfold Rest.delete_git_worktree, Git.removeWorktree, Async.try_catch, Async.bind,
      Async.ret, Async.console_write, Async.throw, remove_args.
    run_command; try (now exists []).
    run_command; cbn; eexists; rewrite <- app_assoc; reflexivity.
Qed.

(** What a git route does first. *)
Lemma git_route_first_call (r : Rest.GitRoute) (req : Rest.Body) (w : World) :
  match first_call r req with
  | Some c =>
      exists more,
        spawned_calls (snd (git_route r req w)) = (spawned_calls w ++ c :: more)%list
  | None =>
      fst (git_route r req w) =
        resolved {| Rest.status := 500;
                    Rest.body :=
                      JObj [("error", JStr (Js.message Path.ERR_INVALID_ARG_TYPE))] |}
  end.
Proof.
  destruct (first_call r req) as [c|] eqn:F.
  - exact (git_route_spawns r req w c F).
  - destruct r; try discriminate.
    cbn [first_call] in F.
    unfold Rest.git_route, Rest.post_git_worktree_add, Git.addWorktree.
    destruct (Rest.projectPath req); [reflexivity | discriminate].
Qed.

(** C10. A git route validates nothing: for every body it answers 200
    with the result of its git operation on the fields as they came, or 500
    with the message of the error the operation threw, and nothing else, so
    never 400; the first process it spawns carries the fields of the body,
    missing or empty as they may be.  Only [worktree/add] without
    [projectPath] spawns nothing: the argument check of [path.basename]
    throws and the answer is 500. *)
Theorem git_routes_no_validation (r : Rest.GitRoute) (req : Rest.Body) (w : World) :
  let operation := git_operation r req w in
  let response := git_route r req w in
  (forall payload,
     fst operation = resolved payload ->
     fst response = resolved {| Rest.status := 200; Rest.body := payload |}) /\
  (forall e,
     fst operation = rejected e ->
     fst response =
       resolved {| Rest.status := 500;
                   Rest.body := JObj [("error", JStr (Js.message e))] |}) /\
  (forall resp,
     fst response = resolved resp ->
     Rest.status resp = 200 \/ Rest.status resp = 500) /\
  (forall e, fst response <> rejected e) /\
  match first_call r req with
  | Some c =>
      exists more, spawned_calls (snd response) = (spawned_calls w ++ c :: more)%list
  | None =>
      fst response =
        resolved {| Rest.status := 500;
                    Rest.body :=
                      JObj [("error", JStr (Js.message Path.ERR_INVALID_ARG_TYPE))] |}
  end.
Proof.
  intros operation response.
  pose proof (git_route_cases r req w) as E.
  change (git_route r req w) with response in E.
  change (git_operation r req w) with operation in E.
  split; [|split; [|split; [|split]]];
    [ | | | | exact (git_route_first_call r req w)];
    clearbody response operation; subst response;
    destruct operation as [[ | p | e'] w'];
    unfold Rest.res_json, Rest.res_status_json, Rest.error_message_body; simpl.
  all: try (intros; congruence).
  - intros resp [= <-]. now left.
  - intros resp [= <-]. now right.
Qed.

End GitRoutes.

Lemma git_routes_no_validation_example :
  fst (Rest.git_route Scenario.healthy (str "/usr/bin") (fun _ => [])
         Rest.POST_git_status Scenario.empty_body empty_world) =
    resolved {| Rest.status := 200; Rest.body := JArr [] |} /\
  fst (Rest.git_route Scenario.failing (str "/usr/bin") (fun _ => [])
         Rest.POST_git_worktrees Scenario.empty_body empty_world) =
    resolved {| Rest.status := 500;
                Rest.body := JObj [("error", JStr "fatal: not a git repository")] |} /\
  (exists more,
     spawned_calls
       (snd (Rest.git_route Scenario.failing (str "/usr/bin") (fun _ => [])
               Rest.DELETE_git_worktree Scenario.empty_body empty_world)) =
     {| call_args := [str "worktree"; str "remove"; undefined; str "--force"];
        call_cwd := undefined |} :: more).
Proof.
  split; [|split].
  - apply (proj1 (git_routes_no_validation Scenario.healthy (str "/usr/bin") (fun _ => [])
                    Rest.POST_git_status Scenario.empty_body empty_world)).
    reflexivity.
  - apply (proj1 (proj2 (git_routes_no_validation Scenario.failing (str "/usr/bin")
                           (fun _ => []) Rest.POST_git_worktrees Scenario.empty_body
                           empty_world))
             (Js.new_Error "fatal: not a git repository")).
    reflexivity.
  - exact (proj2 (proj2 (proj2 (proj2
             (git_routes_no_validation Scenario.failing (str "/usr/bin") (fun _ => [])
                Rest.DELETE_git_worktree Scenario.empty_body empty_world))))).
Defined.

End RestSpec.

(* ================================================================== *)
(** * More on the executor *)

Module ExecutorLaws.

Section Executor.

Variable os : Git.Os.
Variable env_PATH : Js.JsVal.

Local Abbreviation executeGitCommand := (Git.executeGitCommand os env_PATH).

(** The promise is settled once: after its output, the first close or error
    event of the child decides, whatever the child emits later, and the
    promise is not left pending. *)
Theorem executeGitCommand_settles_once
  (args : list Js.JsVal) (cwd : Js.JsVal) (w : World)
  (ds later : list Git.ChildEvent) (ev : Git.ChildEvent) :
  only_data ds = true ->
  is_data ev = false ->
  os (spawned_calls w) args cwd = Git.spawned (ds ++ ev :: later) ->
  fst (executeGitCommand args cwd w)
    = Git.promise (Git.listen args env_PATH (ds ++ [ev])) /\
  fst (executeGitCommand args cwd w) <> pending.
Proof.
  intros Hds Hev Hos.
  assert (E : fst (executeGitCommand args cwd w)
              = Git.promise (Git.listen args env_PATH (ds ++ ev :: later))).
  { unfold Git.executeGitCommand. now rewrite Hos. }
  rewrite E.
  rewrite (ExecutorSpec.listen_decided args env_PATH ds later ev Hds Hev).
  rewrite (ExecutorSpec.listen_decided args env_PATH ds [] ev Hds Hev).
  split; [reflexivity|].
  destruct ev as [d|d|c|e]; try discriminate; simpl.
  - destruct c as [[| |]|]; discriminate.
  - destruct (Js.code e) as [c|]; [destruct (c =? "ENOENT")|]; discriminate.
Qed.

(** There is no timeout: while the child only writes and neither closes
    nor fails, the promise stays pending, and so do the operations that
    await it; [isGitRepository] then gives no answer at all. *)
Theorem executeGitCommand_no_timeout
  (args : list Js.JsVal) (cwd : Js.JsVal) (w : World) (events : list Git.ChildEvent) :
  only_data events = true ->
  os (spawned_calls w) args cwd = Git.spawned events ->
  fst (executeGitCommand args cwd w) = pending /\
  (args = [str "rev-parse"; str "--git-dir"] ->
   fst (Git.isGitRepository os env_PATH cwd w) = pending).
Proof.
  intros Hds Hos.
  assert (E : fst (executeGitCommand args cwd w) = pending).
  { unfold Git.executeGitCommand. rewrite Hos.
    exact (ExecutorSpec.listen_only_data args env_PATH events Hds). }
  split; [exact E|].
  intros ->. unfold Git.isGitRepository, Async.try_catch, Async.bind.
  destruct (executeGitCommand _ cwd w) as [[ | out | e] w1]; simpl in E;
    try discriminate; reflexivity.
Qed.

End Executor.

Lemma executeGitCommand_settles_once_example :
  fst (Git.executeGitCommand Scenario.not_installed (str "/usr/bin")
         [str "status"] (str "/repo") empty_world)
    = Git.promise (Git.listen [str "status"] (str "/usr/bin")
                     [Git.error Scenario.spawn_ENOENT]) /\
  fst (Git.executeGitCommand Scenario.not_installed (str "/usr/bin")
         [str "status"] (str "/repo") empty_world) <> pending.
Proof.
  exact (executeGitCommand_settles_once Scenario.not_installed (str "/usr/bin")
           [str "status"] (str "/repo") empty_world
           [] [Git.close None] (Git.error Scenario.spawn_ENOENT)
           eq_refl eq_refl eq_refl).
Defined.

Lemma executeGitCommand_no_timeout_example :
  fst (Git.executeGitCommand Scenario.hanging (str "/usr/bin")
         [str "rev-parse"; str "--git-dir"] (str "/repo") empty_world) = pending /\
  fst (Git.isGitRepository Scenario.hanging (str "/usr/bin") (str "/repo") empty_world)
    = pending.
Proof.
  pose proof (executeGitCommand_no_timeout Scenario.hanging (str "/usr/bin")
                [str "rev-parse"; str "--git-dir"] (str "/repo") empty_world
                [Git.stderr_data "Username for 'https://example.org': "]
                eq_refl eq_refl) as [H1 H2].
  split; [exact H1 | exact (H2 eq_refl)].
Defined.

End ExecutorLaws.

(* ================================================================== *)
(** * More on the git operations *)

Module OperationsLaws.

Import StringFacts.

Section Operations.

Variable os : Git.Os.
Variable env_PATH : Js.JsVal.
Variable process_cwd : string.

Local Abbreviation executeGitCommand := (Git.executeGitCommand os env_PATH).
Local Abbreviation removeWorktree := (Git.removeWorktree os env_PATH).
Local Abbreviation addWorktree := (Git.addWorktree os env_PATH).
Local Abbreviation isGitAvailable := (Git.isGitAvailable os env_PATH process_cwd).

Ltac run_command :=
  match goal with
  | |- context [Git.executeGitCommand ?o ?p ?args ?cwd ?w] =>
      let E := fresh "E" in
      pose proof (ExecutorSpec.executeGitCommand_world o p args cwd w) as E;
      destruct (Git.executeGitCommand o p args cwd w) as [[ | ? | ?] ?];
      simpl in E; subst
  end.

(** What [removeWorktree] leaves behind, case by case on its two commands. *)
Lemma removeWorktree_world (projectPath worktreePath branchName : Js.JsVal) (w : World) :
  let c1 := {| call_args := remove_args worktreePath; call_cwd := projectPath |} in
  let c2 := {| call_args := branch_args branchName; call_cwd := projectPath |} in
  let w1 := Async.record_call c1 w in
  snd (removeWorktree projectPath worktreePath branchName w) =
  match fst (executeGitCommand (remove_args worktreePath) projectPath w) with
  | resolved _ =>
      match fst (executeGitCommand (branch_args branchName) projectPath w1) with
      | rejected e =>
          {| spawned_calls := (spawned_calls w ++ [c1; c2])%list;
             console := (console w ++
                         [{| console_method := console_warn;
                             console_label :=
                               "Failed to delete branch but worktree was removed:";
                             console_argument := e |}])%list |}
      | _ => {| spawned_calls := (spawned_calls w ++ [c1; c2])%list;
                console := console w |}
      end
  | _ => w1
  end.
Proof.
  intros c1 c2 w1. subst c1 c2 w1.
  unfold Git.removeWorktree, Async.try_catch, Async.bind, Async.ret, Async.throw,
    Async.console_write, remove_args, branch_args.
  run_command; simpl; try reflexivity.
  run_command; simpl; unfold Async.record_call; simpl; now rewrite <- app_assoc.
Qed.

(** When both commands succeed, the result carries no warning, the two
    processes were spawned in order in the project directory, and nothing
    is written to the console. *)
Theorem removeWorktree_clean_success
  (projectPath worktreePath branchName : Js.JsVal) (w : World) (out1 out2 : string) :
  let c1 := {| call_args := remove_args worktreePath; call_cwd := projectPath |} in
  let c2 := {| call_args := branch_args branchName; call_cwd := projectPath |} in
  fst (executeGitCommand (remove_args worktreePath) projectPath w) = resolved out1 ->
  fst (executeGitCommand (branch_args branchName) projectPath (Async.record_call c1 w))
    = resolved out2 ->
  removeWorktree projectPath worktreePath branchName w =
    (resolved {| WorktreeRemoveResult.success := true;
                 WorktreeRemoveResult.warning := None |},
     {| spawned_calls := (spawned_calls w ++ [c1; c2])%list; console := console w |}).
Proof.
  intros c1 c2 H1 H2.
  pose proof (OperationsSpec.removeWorktree_cases os env_PATH
                projectPath worktreePath branchName w) as R.
  pose proof (removeWorktree_world projectPath worktreePath branchName w) as W.
  cbv zeta in R, W.
  rewrite (ExecutorSpec.executeGitCommand_world os env_PATH _ projectPath w) in R.
  fold c1 in R, W. rewrite H1 in R, W. rewrite H2 in R, W.
  fold c2 in W.
  destruct (removeWorktree projectPath worktreePath branchName w) as [r w'].
  simpl in R, W. now subst.
Qed.

(** When the removal fails, or never ends, [git branch -D] is not run:
    the removal is the only process spawned and the console is untouched. *)
Theorem removeWorktree_failure_skips_branch
  (projectPath worktreePath branchName : Js.JsVal) (w : World) :
  (forall out,
     fst (executeGitCommand (remove_args worktreePath) projectPath w) <> resolved out) ->
  snd (removeWorktree projectPath worktreePath branchName w) =
    {| spawned_calls :=
         (spawned_calls w ++
          [{| call_args := remove_args worktreePath; call_cwd := projectPath |}])%list;
       console := console w |}.
Proof.
  intros H.
  pose proof (removeWorktree_world projectPath worktreePath branchName w) as W.
  cbv zeta in W. rewrite W.
  destruct (fst (executeGitCommand (remove_args worktreePath) projectPath w)) as [ | out | e];
    try reflexivity.
  now elim (H out).
Qed.

(** When the removal succeeds and the branch deletion fails with [e], the
    console is called once: [console.warn] with the label
    [Failed to delete branch but worktree was removed:] and the error [e]
    itself, next to the warning of the result. *)
Theorem removeWorktree_warning_logged
  (projectPath worktreePath branchName : Js.JsVal) (w : World)
  (out : string) (e : Js.Error) :
  let c1 := {| call_args := remove_args worktreePath; call_cwd := projectPath |} in
  let c2 := {| call_args := branch_args branchName; call_cwd := projectPath |} in
  fst (executeGitCommand (remove_args worktreePath) projectPath w) = resolved out ->
  fst (executeGitCommand (branch_args branchName) projectPath (Async.record_call c1 w))
    = rejected e ->
  snd (removeWorktree projectPath worktreePath branchName w) =
    {| spawned_calls := (spawned_calls w ++ [c1; c2])%list;
       console := (console w ++
                   [{| console_method := console_warn;
                       console_label :=
                         "Failed to delete branch but worktree was removed:";
                       console_argument := e |}])%list |}.
Proof.
  intros c1 c2 H1 H2.
  pose proof (removeWorktree_world projectPath worktreePath branchName w) as W.
  cbv zeta in W. fold c1 in W. rewrite H1, H2 in W. exact W.
Qed.

(** [addWorktree] hands a failure of its command on as it is, the same
    error object, and wraps nothing; without [projectPath] it fails on the
    argument check of [path.basename] before any process is spawned. *)
Theorem addWorktree_failure_unwrapped (branchName : Js.JsVal) (w : World) :
  (forall projectPath e,
     fst (executeGitCommand
            [str "worktree"; str "add"; str "-b"; branchName;
             str (Path.join [projectPath; "..";
                             Path.basename projectPath ++ "-" ++ Js.template branchName])]
            (str projectPath) w) = rejected e ->
     fst (addWorktree (str projectPath) branchName w) = rejected e) /\
  addWorktree undefined branchName w = (rejected Path.ERR_INVALID_ARG_TYPE, w).
Proof.
  split; [|reflexivity].
  intros projectPath e H.
  unfold Git.addWorktree, Async.bind.
  destruct (executeGitCommand _ (str projectPath) w) as [[ | out | e'] w1];
    simpl in H |- *; congruence.
Qed.

(** [isGitAvailable] never rejects; it spawns [git --version] once, in the
    current directory of the server, and writes nothing to the console. *)
Theorem isGitAvailable_never_rejects (w : World) :
  (forall e, fst (isGitAvailable w) <> rejected e) /\
  snd (isGitAvailable w) =
    {| spawned_calls :=
         (spawned_calls w ++
          [{| call_args := [str "--version"]; call_cwd := str process_cwd |}])%list;
       console := console w |}.
Proof.
  unfold Git.isGitAvailable, Async.try_catch, Async.bind, Async.ret.
  run_command; simpl.
  - split; [discriminate | reflexivity].
  - split; [discriminate | reflexivity].
  - destruct (Js.includes (Js.message e) "Git executable not found"); simpl;
      (split; [discriminate | reflexivity]).
Qed.

End Operations.

Lemma removeWorktree_clean_success_example :
  Git.removeWorktree Scenario.healthy (str "/usr/bin")
    (str "/a/proj") (str "/a/proj-feat") (str "feat") empty_world =
  (resolved {| WorktreeRemoveResult.success := true;
               WorktreeRemoveResult.warning := None |},
   {| spawned_calls :=
        [{| call_args := remove_args (str "/a/proj-feat"); call_cwd := str "/a/proj" |};
         {| call_args := branch_args (str "feat"); call_cwd := str "/a/proj" |}];
      console := [] |}).
Proof.
  exact (removeWorktree_clean_success Scenario.healthy (str "/usr/bin")
           (str "/a/proj") (str "/a/proj-feat") (str "feat") empty_world
           "git version 2.43.0" "git version 2.43.0" eq_refl eq_refl).
Defined.

Lemma removeWorktree_failure_skips_branch_example :
  snd (Git.removeWorktree Scenario.failing (str "/usr/bin")
         (str "/a/proj") (str "/a/proj-feat") (str "feat") empty_world) =
  {| spawned_calls :=
       [{| call_args := remove_args (str "/a/proj-feat"); call_cwd := str "/a/proj" |}];
     console := [] |}.
Proof.
  apply (removeWorktree_failure_skips_branch Scenario.failing (str "/usr/bin")
           (str "/a/proj") (str "/a/proj-feat") (str "feat") empty_world).
  intros out. vm_compute. discriminate.
Defined.

Lemma removeWorktree_warning_logged_example :
  snd (Git.removeWorktree Scenario.branch_undeletable (str "/usr/bin")
         (str "/a/proj") (str "/a/proj-feat") (str "feat") empty_world) =
  {| spawned_calls :=
       [{| call_args := remove_args (str "/a/proj-feat"); call_cwd := str "/a/proj" |};
        {| call_args := branch_args (str "feat"); call_cwd := str "/a/proj" |}];
     console :=
       [{| console_method := console_warn;
           console_label := "Failed to delete branch but worktree was removed:";
           console_argument := Js.new_Error "error: branch 'feat' not found." |}] |}.
Proof.
  exact (removeWorktree_warning_logged Scenario.branch_undeletable
           (str "/usr/bin") (str "/a/proj") (str "/a/proj-feat") (str "feat")
           empty_world "" (Js.new_Error "error: branch 'feat' not found.")
           eq_refl eq_refl).
Defined.

Lemma addWorktree_failure_unwrapped_example :
  fst (Git.addWorktree Scenario.failing (str "/usr/bin") (str "/a/proj") (str "feat")
         empty_world) = rejected (Js.new_Error "fatal: not a git repository").
Proof.
  apply (proj1 (addWorktree_failure_unwrapped Scenario.failing (str "/usr/bin")
                  (str "feat") empty_world)).
  reflexivity.
Defined.

Lemma isGitAvailable_never_rejects_example :
  snd (Git.isGitAvailable Scenario.not_installed (str "/usr/bin") "/srv" empty_world) =
  {| spawned_calls := [{| call_args := [str "--version"]; call_cwd := str "/srv" |}];
     console := [] |}.
Proof.
  exact (proj2 (isGitAvailable_never_rejects Scenario.not_installed (str "/usr/bin")
                  "/srv" empty_world)).
Defined.

End OperationsLaws.

(* ================================================================== *)
(** * Trailing separators, diffs and the current branch *)

Module QueryLaws.

Import StringFacts.




(** [String.prototype.trim]. *)
Lemma trimEnd_whitespace (pad : string) :
  forallb Js.is_whitespace (list_ascii_of_string pad) = true -> Js.trimEnd pad = "".
Proof.
  induction pad as [|c pad IH]; [reflexivity|].
  cbn [list_ascii_of_string forallb Js.trimEnd]. intros H.
  apply andb_true_iff in H as [Hc Hpad]. now rewrite (IH Hpad), Hc.
Qed.

Lemma trimEnd_append (x pad : string) :
  forallb Js.is_whitespace (list_ascii_of_string pad) = true ->
  Js.trimEnd (x ++ pad) = Js.trimEnd x.
Proof.
  intros H. induction x as [|c x IH].
  - change ("" ++ pad) with pad. now rewrite (trimEnd_whitespace pad H).
  - change (String c x ++ pad) with (String c (x ++ pad)).
    cbn [Js.trimEnd]. now rewrite IH.
Qed.

Lemma trimStart_whitespace (lead rest : string) :
  forallb Js.is_whitespace (list_ascii_of_string lead) = true ->
  Js.trimStart (lead ++ rest) = Js.trimStart rest.
Proof.
  induction lead as [|c lead IH]; [reflexivity|].
  cbn [list_ascii_of_string forallb]. intros H.
  apply andb_true_iff in H as [Hc Hlead].
  change (String c lead ++ rest) with (String c (lead ++ rest)).
  cbn [Js.trimStart]. now rewrite Hc, (IH Hlead).
Qed.

Lemma trimStart_append (b pad : string) :
  forallb Js.is_whitespace (list_ascii_of_string pad) = true ->
  Js.trimEnd (Js.trimStart (b ++ pad)) = Js.trimEnd (Js.trimStart b).
Proof.
  intros H. induction b as [|c b IH].
  - change ("" ++ pad) with pad.
    rewrite <- (append_empty_r pad), (trimStart_whitespace pad "" H). reflexivity.
  - change (String c b ++ pad) with (String c (b ++ pad)).
    cbn [Js.trimStart]. destruct (Js.is_whitespace c); [exact IH|].
    change (String c (b ++ pad)) with (String c b ++ pad).
    now apply trimEnd_append.
Qed.

Lemma trim_padding (lead b pad : string) :
  forallb Js.is_whitespace (list_ascii_of_string lead) = true ->
  forallb Js.is_whitespace (list_ascii_of_string pad) = true ->
  Js.trim (lead ++ b ++ pad) = Js.trim b.
Proof.
  intros Hlead Hpad. unfold Js.trim.
  rewrite (trimStart_whitespace lead _ Hlead).
  now apply trimStart_append.
Qed.

Lemma trimEnd_idempotent (x : string) : Js.trimEnd (Js.trimEnd x) = Js.trimEnd x.
Proof.
  induction x as [|c x IH]; [reflexivity|].
  cbn [Js.trimEnd].
  destruct ((Js.trimEnd x =? "") && Js.is_whitespace c) eqn:E; [reflexivity|].
  cbn [Js.trimEnd]. now rewrite IH, E.
Qed.

Lemma trimStart_head (s : string) :
  Js.trimStart s = "" \/
  exists c rest, Js.trimStart s = String c rest /\ Js.is_whitespace c = false.
Proof.
  induction s as [|c s IH]; [now left|].
  cbn [Js.trimStart]. destruct (Js.is_whitespace c) eqn:E; [exact IH|].
  right. now exists c, s.
Qed.

Lemma trim_idempotent (s : string) : Js.trim (Js.trim s) = Js.trim s.
Proof.
  unfold Js.trim.
  destruct (trimStart_head s) as [-> | (c & rest & -> & Hc)]; [reflexivity|].
  cbn [Js.trimEnd]. rewrite Hc, andb_false_r.
  cbn [Js.trimStart]. rewrite Hc.
  cbn [Js.trimEnd]. now rewrite Hc, andb_false_r, trimEnd_idempotent.
Qed.

Section Queries.

Variable os : Git.Os.
Variable env_PATH : Js.JsVal.
Variable parseGitStatus : string -> list GitStatus.t.

Local Abbreviation executeGitCommand := (Git.executeGitCommand os env_PATH).
Local Abbreviation addWorktree := (Git.addWorktree os env_PATH).
Local Abbreviation getCurrentBranch := (Git.getCurrentBranch os env_PATH).
Local Abbreviation post_git_diff := (Rest.post_git_diff os env_PATH).


(** [POST /api/git/diff] hands the diff on untouched: when git exits with
    status 0 the answer is 200 with the accumulated stdout as [diff], neither
    trimmed nor parsed.  The one process spawned is [git diff] alone when
    [filePath] is missing or empty, and [git diff <filePath>] otherwise. *)
Theorem post_git_diff_verbatim
  (req : Rest.Body) (w : World) (ds rest : list Git.ChildEvent) :
  let args := str "diff" ::
              (if Js.truthy (Rest.filePath req) then [Rest.filePath req] else []) in
  only_data ds = true ->
  os (spawned_calls w) args (Rest.worktreePath req)
    = Git.spawned (ds ++ Git.close (Some 0%Z) :: rest) ->
  post_git_diff req w =
    (resolved {| Rest.status := 200;
                 Rest.body := JObj [("diff", JStr (stdout_text ds))] |},
     Async.record_call {| call_args := args; call_cwd := Rest.worktreePath req |} w) /\
  (Rest.filePath req = undefined \/ Rest.filePath req = str "" -> args = [str "diff"]).
Proof.
  intros args Hds Hos. split.
  - unfold Rest.post_git_diff, Git.getGitDiff, Async.try_catch, Async.bind, Async.ret,
      Git.executeGitCommand.
    cbn [app]. fold args. rewrite Hos.
    rewrite (ExecutorSpec.listen_decided _ _ ds rest (Git.close (Some 0%Z)) Hds eq_refl).
    reflexivity.
  - subst args. now intros [-> | ->].
Qed.

(** [getCurrentBranch] strips the white space around what git prints: when
    git writes a name between blanks, tabs or line breaks and exits with
    status 0, the result is the trimmed name. *)
Theorem getCurrentBranch_trims
  (worktreePath : Js.JsVal) (w : World) (ds rest : list Git.ChildEvent)
  (lead name pad : string) :
  only_data ds = true ->
  stdout_text ds = lead ++ name ++ pad ->
  forallb Js.is_whitespace (list_ascii_of_string lead) = true ->
  forallb Js.is_whitespace (list_ascii_of_string pad) = true ->
  os (spawned_calls w) [str "rev-parse"; str "--abbrev-ref"; str "HEAD"] worktreePath
    = Git.spawned (ds ++ Git.close (Some 0%Z) :: rest) ->
  fst (getCurrentBranch worktreePath w) = resolved (Js.trim name).
Proof.
  intros Hds Hout Hlead Hpad Hos.
  unfold Git.getCurrentBranch, Async.bind, Async.ret, Git.executeGitCommand.
  rewrite Hos.
  rewrite (ExecutorSpec.listen_decided _ _ ds rest (Git.close (Some 0%Z)) Hds eq_refl).
  cbn [Git.on_event Git.settle Git.promise Git.stdout Git.stderr fst].
  now rewrite Hout, trim_padding.
Qed.

(** Whatever [getCurrentBranch] resolves with has no white space left at
    either end: trimming it again changes nothing. *)
Theorem getCurrentBranch_result_trimmed
  (worktreePath : Js.JsVal) (w : World) (branch : string) :
  fst (getCurrentBranch worktreePath w) = resolved branch ->
  Js.trim branch = branch.
Proof.
  unfold Git.getCurrentBranch, Async.bind, Async.ret.
  destruct (executeGitCommand _ worktreePath w) as [[ | out | e] w1]; simpl;
    try discriminate.
  intros [= <-]. apply trim_idempotent.
Qed.

End Queries.


Lemma post_git_diff_verbatim_example :
  Rest.post_git_diff Scenario.healthy (str "/usr/bin")
    {| Rest.projectPath := undefined; Rest.worktreePath := str "/a/proj";
       Rest.branchName := undefined; Rest.filePath := str "" |} empty_world =
  (resolved {| Rest.status := 200;
               Rest.body := JObj [("diff", JStr "git version 2.43.0")] |},
   {| spawned_calls := [{| call_args := [str "diff"]; call_cwd := str "/a/proj" |}];
      console := [] |}).
Proof.
  exact (proj1 (post_git_diff_verbatim Scenario.healthy (str "/usr/bin")
                  {| Rest.projectPath := undefined; Rest.worktreePath := str "/a/proj";
                     Rest.branchName := undefined; Rest.filePath := str "" |}
                  empty_world [Git.stdout_data "git version 2.43.0"] []
                  eq_refl eq_refl)).
Defined.

Lemma getCurrentBranch_trims_example :
  fst (Git.getCurrentBranch Scenario.on_main (str "/usr/bin") (str "/a/proj") empty_world)
    = resolved "main".
Proof.
  exact (getCurrentBranch_trims Scenario.on_main (str "/usr/bin") (str "/a/proj")
           empty_world
           [Git.stdout_data "ma"; Git.stdout_data ("in" ++ String GitParser.newline "")] []
           "" "main" (String GitParser.newline "")
           eq_refl eq_refl eq_refl eq_refl eq_refl).
Defined.

Lemma getCurrentBranch_result_trimmed_example : Js.trim "main" = "main".
Proof.
  apply (getCurrentBranch_result_trimmed Scenario.on_main (str "/usr/bin")
           (str "/a/proj") empty_world "main").
  reflexivity.
Defined.

End QueryLaws.

(* ================================================================== *)
(** * More on the REST handlers *)

Module RestLaws.

Section Directories.

Variable validatePath : string -> Async Rest.Validation.
Variable listDirectories : string -> Async Js.Json.

Local Abbreviation get_directories := (Rest.get_directories validatePath listDirectories).
Local Abbreviation get_directories_validate := (Rest.get_directories_validate validatePath).

(** The guard of the two directory routes lets through the strings of 1 to
    1000 characters and nothing else; whatever it stops, an array or object
    parameter included, gets the same 400 answer on both routes, and no
    helper runs. *)
Theorem directories_guard_bounds (path : Rest.QueryVal) (w : World) :
  (Rest.invalid_path_parameter path = false <->
   exists s, path = Rest.q_string s /\ 1 <= String.length s <= 1000) /\
  (Rest.invalid_path_parameter path = true ->
   get_directories path w = (resolved Rest.invalid_path_response, w) /\
   get_directories_validate path w = (resolved Rest.invalid_path_response, w)).
Proof.
  split.
  - destruct path as [ | s | ]; cbn [Rest.invalid_path_parameter].
    + split; [discriminate | now intros (s & ? & _)].
    + rewrite orb_false_iff, Nat.ltb_ge. split.
      * intros [He Hl]. exists s. split; [reflexivity|].
        destruct s; [discriminate He | simpl in *; lia].
      * intros (s' & [= <-] & H1 & H2). split; [|exact H2].
        destruct s; [simpl in H1; lia | reflexivity].
    + split; [discriminate | now intros (s & ? & _)].
  - intros H.
    unfold Rest.get_directories, Rest.get_directories_validate, Async.try_catch.
    now rewrite H.
Qed.

(** The listing route never rejects, and answers 200, 400 or 500 only. *)
Theorem get_directories_status_range (path : Rest.QueryVal) (w : World) :
  (forall e, fst (get_directories path w) <> rejected e) /\
  (forall resp,
     fst (get_directories path w) = resolved resp ->
     Rest.status resp = 200 \/ Rest.status resp = 400 \/ Rest.status resp = 500).
Proof.
  unfold Rest.get_directories, Async.try_catch, Async.bind, Async.ret, Async.console_write.
  destruct (Rest.invalid_path_parameter path).
  - simpl. split; [discriminate|]. intros resp [= <-]. right. now left.
  - destruct path as [ | p | ].
    + simpl. split; [discriminate|]. intros resp [= <-]. right. now left.
    + destruct (validatePath p w) as [[ | v | e] w1]; simpl.
      * split; discriminate.
      * destruct (Rest.valid v); simpl.
        -- destruct (listDirectories p w1) as [[ | d | e] w2]; simpl.
           ++ split; discriminate.
           ++ split; [discriminate|]. intros resp [= <-]. now left.
           ++ split; [discriminate|]. intros resp [= <-]. right. now right.
        -- split; [discriminate|]. intros resp [= <-]. right. now left.
      * split; [discriminate|]. intros resp [= <-]. right. now right.
    + simpl. split; [discriminate|]. intros resp [= <-]. right. now left.
Qed.

(** What a helper throws is kept from the client: the answer is 500 with
    the fixed text [Directory operation failed], and the error goes to the
    console only, in one [console.error] with the label
    [Directory listing error:]. *)
Theorem get_directories_masks_errors (p : string) (w : World) :
  Rest.invalid_path_parameter (Rest.q_string p) = false ->
  (forall e w1,
     validatePath p w = (rejected e, w1) ->
     get_directories (Rest.q_string p) w =
       (resolved {| Rest.status := 500;
                    Rest.body := JObj [("error", JStr "Directory operation failed")] |},
        {| spawned_calls := spawned_calls w1;
           console := (console w1 ++
                       [{| console_method := console_error;
                           console_label := "Directory listing error:";
                           console_argument := e |}])%list |}))
  /\
  (forall v w1 e w2,
     validatePath p w = (resolved v, w1) ->
     Rest.valid v = true ->
     listDirectories p w1 = (rejected e, w2) ->
     get_directories (Rest.q_string p) w =
       (resolved {| Rest.status := 500;
                    Rest.body := JObj [("error", JStr "Directory operation failed")] |},
        {| spawned_calls := spawned_calls w2;
           console := (console w2 ++
                       [{| console_method := console_error;
                           console_label := "Directory listing error:";
                           console_argument := e |}])%list |})).
Proof.
  intros G. split.
  - intros e w1 Hv.
    unfold Rest.get_directories, Async.try_catch, Async.bind. now rewrite G, Hv.
  - intros v w1 e w2 Hv Hvalid Hl.
    unfold Rest.get_directories, Async.try_catch, Async.bind.
    rewrite G, Hv. cbv beta iota. rewrite Hvalid. cbn [negb]. cbv beta iota.
    now rewrite Hl.
Qed.

(** The listing comes after the check: a path the check refuses gets 400
    with the reason of the check, or [Path is not accessible] when the check
    gives none or an empty one, and the directory is not read; a path it
    accepts gets 200 with the path as sent and the listing as read. *)
Theorem get_directories_validates_first (p : string) (w : World)
  (v : Rest.Validation) (w1 : World) :
  Rest.invalid_path_parameter (Rest.q_string p) = false ->
  validatePath p w = (resolved v, w1) ->
  (Rest.valid v = false ->
   get_directories (Rest.q_string p) w =
     (resolved {| Rest.status := 400;
                  Rest.body :=
                    JObj [("error", JStr "Invalid path");
                          ("details",
                           JStr (match Rest.validation_error v with
                                 | str reason =>
                                     if reason =? "" then "Path is not accessible"
                                     else reason
                                 | undefined => "Path is not accessible"
                                 end))] |},
      w1)) /\
  (forall d w2,
     Rest.valid v = true ->
     listDirectories p w1 = (resolved d, w2) ->
     get_directories (Rest.q_string p) w =
       (resolved {| Rest.status := 200;
                    Rest.body := JObj [("path", JStr p); ("directories", d);
                                       ("success", JBool true)] |},
        w2)).
Proof.
  intros G Hv. split.
  - intros Hvalid.
    unfold Rest.get_directories, Async.try_catch, Async.bind, Async.ret.
    rewrite G, Hv, Hvalid. cbn [negb].
    destruct (Rest.validation_error v) as [|reason]; [reflexivity|].
    cbn [Js.truthy Js.template]. now destruct (reason =? "").
  - intros d w2 Hvalid Hl.
    unfold Rest.get_directories, Async.try_catch, Async.bind, Async.ret.
    rewrite G, Hv. cbv beta iota. rewrite Hvalid. cbn [negb]. cbv beta iota.
    now rewrite Hl.
Qed.

(** The validation route reports the verdict instead of acting on it: a
    refused path still gets 200, with the verdict in the body; only a check
    that throws gets 500, with the fixed text [Path validation failed], and
    the error goes to one [console.error] with the label
    [Path validation error:]. *)
Theorem get_directories_validate_reports (p : string) (w : World) :
  Rest.invalid_path_parameter (Rest.q_string p) = false ->
  (forall v w1,
     validatePath p w = (resolved v, w1) ->
     get_directories_validate (Rest.q_string p) w =
       (resolved {| Rest.status := 200;
                    Rest.body := JObj [("path", JStr p);
                                       ("validation", Rest.Validation_toJSON v);
                                       ("success", JBool true)] |},
        w1)) /\
  (forall e w1,
     validatePath p w = (rejected e, w1) ->
     get_directories_validate (Rest.q_string p) w =
       (resolved {| Rest.status := 500;
                    Rest.body := JObj [("error", JStr "Path validation failed")] |},
        {| spawned_calls := spawned_calls w1;
           console := (console w1 ++
                       [{| console_method := console_error;
                           console_label := "Path validation error:";
                           console_argument := e |}])%list |})).
Proof.
  intros G. split.
  - intros v w1 Hv.
    unfold Rest.get_directories_validate, Async.try_catch, Async.bind, Async.ret.
    now rewrite G, Hv.
  - intros e w1 Hv.
    unfold Rest.get_directories_validate, Async.try_catch, Async.bind.
    now rewrite G, Hv.
Qed.

End Directories.

Section Worktree.

Variable os : Git.Os.
Variable env_PATH : Js.JsVal.

Local Abbreviation executeGitCommand := (Git.executeGitCommand os env_PATH).
Local Abbreviation delete_git_worktree := (Rest.delete_git_worktree os env_PATH).

(** [DELETE /api/git/worktree] over HTTP: a branch that cannot be deleted
    after its worktree is gone is a 200 with [success] and a warning that
    starts with [Worktree removed but failed to delete branch: ] and holds
    the text of the error; a worktree that cannot be removed is a 500 whose
    [error] starts with [Failed to remove worktree: ] and holds the text of
    the error of git. *)
Theorem delete_git_worktree_outcomes (req : Rest.Body) (w : World) :
  let removal :=
    executeGitCommand (remove_args (Rest.worktreePath req)) (Rest.projectPath req) w in
  let deletion :=
    executeGitCommand (branch_args (Rest.branchName req)) (Rest.projectPath req)
      (snd removal) in
  (forall out e,
     fst removal = resolved out ->
     fst deletion = rejected e ->
     exists text,
       fst (delete_git_worktree req w) =
         resolved {| Rest.status := 200;
                     Rest.body := JObj [("success", JBool true);
                                        ("warning", JStr text)] |} /\
       String.prefix "Worktree removed but failed to delete branch: " text = true /\
       Contains text (Js.message e)) /\
  (forall e,
     fst removal = rejected e ->
     exists text,
       fst (delete_git_worktree req w) =
         resolved {| Rest.status := 500;
                     Rest.body := JObj [("error", JStr text)] |} /\
       String.prefix "Failed to remove worktree: " text = true /\
       Contains text (Js.message e)).
Proof.
  intros removal deletion.
  pose proof (OperationsSpec.removeWorktree_cases os env_PATH
                (Rest.projectPath req) (Rest.worktreePath req) (Rest.branchName req) w) as R.
  cbv zeta in R. fold removal in R. fold deletion in R.
  assert (F : forall r,
            fst (Git.removeWorktree os env_PATH (Rest.projectPath req)
                   (Rest.worktreePath req) (Rest.branchName req) w) = r ->
            fst (delete_git_worktree req w) =
            match r with
            | pending => pending
            | resolved x => resolved (Rest.res_json (WorktreeRemoveResult.toJSON x))
            | rejected e =>
                resolved (Rest.res_status_json 500 (Rest.error_message_body e))
            end).
  { intros r <-. unfold Rest.delete_git_worktree, Async.try_catch, Async.bind, Async.ret.
    now destruct (Git.removeWorktree os env_PATH _ _ _ w) as [[ | x | e] w']. }
  split.
  - intros out e H1 H2. rewrite H1, H2 in R. eexists.
    split; [rewrite (F _ R); reflexivity|].
    split; [apply StringFacts.prefix_append|].
    apply StringFacts.Contains_append_l, StringFacts.Error_toString_Contains.
  - intros e H1. rewrite H1 in R. eexists.
    split; [rewrite (F _ R); reflexivity|].
    split; [apply StringFacts.prefix_append|].
    apply StringFacts.Contains_append_l, StringFacts.Error_toString_Contains.
Qed.

End Worktree.

Lemma directories_guard_bounds_example :
  Rest.invalid_path_parameter (Rest.q_string Scenario.longest_path) = false /\
  Rest.get_directories Scenario.validatePath_accepts Scenario.listDirectories_empty
    Rest.q_other empty_world = (resolved Rest.invalid_path_response, empty_world).
Proof.
  split.
  - apply (proj1 (directories_guard_bounds Scenario.validatePath_accepts
                    Scenario.listDirectories_empty
                    (Rest.q_string Scenario.longest_path) empty_world)).
    exists Scenario.longest_path. split; [reflexivity|].
    split; apply Nat.leb_le; vm_compute; reflexivity.
  - apply (proj2 (directories_guard_bounds Scenario.validatePath_accepts
                    Scenario.listDirectories_empty Rest.q_other empty_world)).
    reflexivity.
Defined.

Lemma get_directories_status_range_example :
  Rest.status {| Rest.status := 500;
                 Rest.body := JObj [("error", JStr "Directory operation failed")] |} = 200
  \/ Rest.status {| Rest.status := 500;
                    Rest.body := JObj [("error", JStr "Directory operation failed")] |} = 400
  \/ Rest.status {| Rest.status := 500;
                    Rest.body := JObj [("error", JStr "Directory operation failed")] |} = 500.
Proof.
  apply (proj2 (get_directories_status_range Scenario.validatePath_accepts
                  Scenario.listDirectories_throws (Rest.q_string "/root") empty_world)).
  reflexivity.
Defined.

Lemma get_directories_masks_errors_example :
  Rest.get_directories Scenario.validatePath_accepts Scenario.listDirectories_throws
    (Rest.q_string "/root") empty_world =
  (resolved {| Rest.status := 500;
               Rest.body := JObj [("error", JStr "Directory operation failed")] |},
   {| spawned_calls := [];
      console := [{| console_method := console_error;
                     console_label := "Directory listing error:";
                     console_argument := Scenario.EACCES |}] |}).
Proof.
  exact (proj2 (get_directories_masks_errors Scenario.validatePath_accepts
                  Scenario.listDirectories_throws "/root" empty_world eq_refl)
           {| Rest.valid := true; Rest.validation_error := undefined |} empty_world
           Scenario.EACCES empty_world eq_refl eq_refl eq_refl).
Defined.

Lemma get_directories_validates_first_example :
  Rest.get_directories Scenario.validatePath_refuses Scenario.listDirectories_throws
    (Rest.q_string "/root") empty_world =
  (resolved {| Rest.status := 400;
               Rest.body := JObj [("error", JStr "Invalid path");
                                  ("details", JStr "Path is not accessible")] |},
   empty_world).
Proof.
  exact (proj1 (get_directories_validates_first Scenario.validatePath_refuses
                  Scenario.listDirectories_throws "/root" empty_world
                  {| Rest.valid := false; Rest.validation_error := undefined |}
                  empty_world eq_refl eq_refl) eq_refl).
Defined.

Lemma get_directories_validate_reports_example :
  Rest.get_directories_validate Scenario.validatePath_refuses
    (Rest.q_string "/root") empty_world =
  (resolved {| Rest.status := 200;
               Rest.body := JObj [("path", JStr "/root");
                                  ("validation", JObj [("valid", JBool false)]);
                                  ("success", JBool true)] |},
   empty_world).
Proof.
  exact (proj1 (get_directories_validate_reports Scenario.validatePath_refuses
                  "/root" empty_world eq_refl)
           {| Rest.valid := false; Rest.validation_error := undefined |} empty_world
           eq_refl).
Defined.

Lemma delete_git_worktree_outcomes_example :
  (exists text,
     fst (Rest.delete_git_worktree Scenario.branch_undeletable (str "/usr/bin")
            {| Rest.projectPath := str "/a/proj"; Rest.worktreePath := str "/a/proj-feat";
               Rest.branchName := str "feat"; Rest.filePath := undefined |} empty_world) =
       resolved {| Rest.status := 200;
                   Rest.body := JObj [("success", JBool true);
                                      ("warning", JStr text)] |} /\
     String.prefix "Worktree removed but failed to delete branch: " text = true /\
     Contains text "error: branch 'feat' not found.") /\
  (exists text,
     fst (Rest.delete_git_worktree Scenario.failing (str "/usr/bin")
            {| Rest.projectPath := str "/a/proj"; Rest.worktreePath := str "/a/proj-feat";
               Rest.branchName := str "feat"; Rest.filePath := undefined |} empty_world) =
       resolved {| Rest.status := 500;
                   Rest.body := JObj [("error", JStr text)] |} /\
     String.prefix "Failed to remove worktree: " text = true /\
     Contains text "fatal: not a git repository").
Proof.
  split.
  - exact (proj1 (delete_git_worktree_outcomes Scenario.branch_undeletable
                    (str "/usr/bin")
                    {| Rest.projectPath := str "/a/proj";
                       Rest.worktreePath := str "/a/proj-feat";
                       Rest.branchName := str "feat"; Rest.filePath := undefined |}
                    empty_world)
             "" (Js.new_Error "error: branch 'feat' not found.") eq_refl eq_refl).
  - exact (proj2 (delete_git_worktree_outcomes Scenario.failing (str "/usr/bin")
                    {| Rest.projectPath := str "/a/proj";
                       Rest.worktreePath := str "/a/proj-feat";
                       Rest.branchName := str "feat"; Rest.filePath := undefined |}
                    empty_world)
             (Js.new_Error "fatal: not a git repository") eq_refl).
Defined.

End RestLaws.
